(** * Core Audio HAL driver bridge: a shallow embedding of
      [src-hal/driver_bundle/hal_driver_bridge.c]

    The C file implements the [AudioServerPlugInDriverInterface] entry points
    of a virtual audio device.  Each entry point is embedded as a computation
    in a small state-and-fault monad over a machine state made of

    - the global pointer [gDriver] and the heap block it points to,
    - the host's memory (the buffers and out-parameters the host passes in),
    - the trace of calls into the C library and CoreFoundation.

    Integers are [Z] with the wrap-around of their C type written out. *)

From Stdlib Require Import ZArith List String Ascii Bool Lia Floats.
Import ListNotations.
Local Open Scope Z_scope.

(** ** Machine integers *)

Definition UInt32_modulus : Z := 2 ^ 32.
Definition size_t_modulus : Z := 2 ^ 64.

(** Conversion to [UInt32] (and [ULONG]): 32 bits, unsigned. *)
Definition to_UInt32 (x : Z) : Z := x mod UInt32_modulus.
(** Conversion to [size_t] (64 bits on the LP64 targets of the plug-in). *)
Definition to_size_t (x : Z) : Z := x mod size_t_modulus.

Definition is_UInt32 (x : Z) : Prop := 0 <= x < UInt32_modulus.

(** A multi-character constant such as ['slay']: the four characters packed
    big-endian into 32 bits. *)
Definition code_of (c : ascii) : Z := Z.of_N (N_of_ascii c).
Definition FourCC (a b c d : ascii) : Z :=
  ((code_of a * 256 + code_of b) * 256 + code_of c) * 256 + code_of d.

(** ** Constants of the CoreAudio and CoreFoundation headers

    The source includes [<CoreAudio/AudioServerPlugIn.h>]; the values below are
    the ones those system headers give on the 64-bit targets the plug-in is
    built for. *)

Definition OSStatus := Z.
Definition AudioObjectID := Z.

Definition kAudioHardwareNoError : OSStatus := 0.
Definition kAudioHardwareUnsupportedOperationError : OSStatus := FourCC "u" "n" "o" "p".
Definition kAudioHardwareBadObjectError : OSStatus := FourCC "!" "o" "b" "j".

Definition kAudioObjectPropertyName : Z := FourCC "l" "n" "a" "m".
Definition kAudioObjectPropertyManufacturer : Z := FourCC "l" "m" "a" "k".
Definition kAudioDevicePropertyDeviceUID : Z := FourCC "u" "i" "d" " ".
Definition kAudioDevicePropertyStreams : Z := FourCC "s" "t" "m" "#".
(** [#define kAudioDevicePropertyStreamConfiguration 'slay'] (source line 17). *)
Definition kAudioDevicePropertyStreamConfiguration : Z := FourCC "s" "l" "a" "y".
Definition kAudioDevicePropertyNominalSampleRate : Z := FourCC "n" "s" "r" "t".
Definition kAudioDevicePropertyAvailableNominalSampleRates : Z := FourCC "n" "s" "r" "#".

Definition kAudioObjectPropertyScopeGlobal : Z := FourCC "g" "l" "o" "b".
Definition kAudioObjectPropertyScopeInput : Z := FourCC "i" "n" "p" "t".
Definition kAudioObjectPropertyScopeOutput : Z := FourCC "o" "u" "t" "p".

(** [sizeof] of the types the entry points measure. *)
Definition sizeof_CFStringRef : Z := 8.
Definition sizeof_Float64 : Z := 8.
Definition sizeof_float : Z := 4.
(** [struct AudioValueRange { Float64 mMinimum; Float64 mMaximum; }] *)
Definition sizeof_AudioValueRange : Z := 16.
Definition offsetof_mMinimum : Z := 0.
Definition offsetof_mMaximum : Z := 8.
(** [struct AudioBuffer { UInt32 mNumberChannels; UInt32 mDataByteSize; void* mData; }] *)
Definition sizeof_AudioBuffer : Z := 16.
Definition offsetof_mNumberChannels : Z := 0.
Definition offsetof_mDataByteSize : Z := 4.
Definition offsetof_mData : Z := 8.
(** [struct AudioBufferList { UInt32 mNumberBuffers; AudioBuffer mBuffers[1]; }] *)
Definition sizeof_AudioBufferList : Z := 24.
Definition offsetof_mNumberBuffers : Z := 0.
Definition offsetof_mBuffers : Z := 8.

(** A [CFUUIDRef], identified by its sixteen bytes. *)
Definition CFUUID := list Z.

(** [kAudioServerPlugInTypeUUID]: 443ABAB8-E7B3-491A-B985-BEB9187030DB. *)
Definition kAudioServerPlugInTypeUUID : CFUUID :=
  [0x44; 0x3A; 0xBA; 0xB8; 0xE7; 0xB3; 0x49; 0x1A;
   0xB9; 0x85; 0xBE; 0xB9; 0x18; 0x70; 0x30; 0xDB].

(** [#define kAudioHALDriverFactoryUUID ...] (source line 21): fifteen bytes
    [0x00], then [0x01]. *)
Definition kAudioHALDriverFactoryUUID : CFUUID :=
  Eval cbv in (List.repeat 0x00 15 ++ [0x01])%list.

Definition CFEqual (a b : CFUUID) : bool :=
  if list_eq_dec Z.eq_dec a b then true else false.

(** ** Host memory

    The host hands the driver raw pointers.  Memory is a map from byte
    addresses to byte contents; integers are stored little-endian, a Core
    Foundation reference or a [Float64] is stored as eight fragments of the
    value. *)

Inductive val : Type :=
  | CFSTR (s : string)        (* the constant CFString object CFSTR("...") *)
  | Float64 (x : float).

Inductive memval : Type :=
  | Undef
  | Byte (b : Z)
  | Fragment (v : val) (i : nat).

Definition mem := Z -> memval.
Definition NULL : Z := 0.

Definition in_range (a n x : Z) : bool := (a <=? x) && (x <? a + n).

Definition store_bytes (m : mem) (a : Z) (bs : list memval) : mem :=
  fun x => if in_range a (Z.of_nat (List.length bs)) x
           then nth (Z.to_nat (x - a)) bs Undef
           else m x.

Fixpoint encode_int (n : nat) (v : Z) : list memval :=
  match n with
  | O => []
  | S n' => Byte (v mod 256) :: encode_int n' (v / 256)
  end.

Definition encode_val (v : val) : list memval :=
  map (Fragment v) (seq 0 8).

Definition store_Boolean (m : mem) (a : Z) (b : bool) : mem :=
  store_bytes m a (encode_int 1 (if b then 1 else 0)).
Definition store_UInt32 (m : mem) (a : Z) (v : Z) : mem :=
  store_bytes m a (encode_int 4 (to_UInt32 v)).
Definition store_UInt64 (m : mem) (a : Z) (v : Z) : mem :=
  store_bytes m a (encode_int 8 (to_size_t v)).
Definition store_pointer (m : mem) (a : Z) (p : Z) : mem :=
  store_bytes m a (encode_int 8 (to_size_t p)).
Definition store_val (m : mem) (a : Z) (v : val) : mem :=
  store_bytes m a (encode_val v).

(** [memset(a, c, n)]: the [n] bytes from [a] all become [(unsigned char) c]. *)
Definition memset (m : mem) (a : Z) (c : Z) (n : Z) : mem :=
  fun x => if in_range a n x then Byte (c mod 256) else m x.

Definition load_byte (m : mem) (a : Z) : option Z :=
  match m a with
  | Byte b => Some b
  | _ => None
  end.

Fixpoint decode_int (n : nat) (m : mem) (a : Z) : option Z :=
  match n with
  | O => Some 0
  | S n' =>
      match load_byte m a, decode_int n' m (a + 1) with
      | Some b, Some r => Some (b + 256 * r)
      | _, _ => None
      end
  end.

Definition load_UInt32 (m : mem) (a : Z) : option Z := decode_int 4 m a.
Definition load_Boolean (m : mem) (a : Z) : option bool :=
  match load_byte m a with
  | Some b => Some (negb (b =? 0))
  | None => None
  end.

(** ** The driver instance and the machine state *)

(** The one interface table of the file, [gAudioServerPlugInDriverInterface]. *)
Inductive InterfaceRef : Type :=
  | gAudioServerPlugInDriverInterface.

(** [typedef struct { ... } AudioHALDriver;] (source lines 75-83). *)
Record AudioHALDriver : Type := mkAudioHALDriver {
  interface : InterfaceRef;
  factoryID : CFUUID;
  refCount : Z;
  host : Z;
  deviceObjectID : AudioObjectID;
  inputChannels : Z;
  outputChannels : Z
}.

(** A pointer to an [AudioHALDriver]: null, or the address of the one block
    the factory allocates. *)
Inductive DriverRef : Type :=
  | NullDriver
  | DriverBlock.

Inductive event : Type :=
  | fprintf_stderr (msg : string)
  | malloc_AudioHALDriver (succeeded : bool)
  | free_AudioHALDriver
  | CFPlugInAddInstanceForFactory (factory : CFUUID)
  | CFPlugInRemoveInstanceForFactory (factory : CFUUID).

Record State : Type := mkState {
  gDriver : DriverRef;              (* static AudioHALDriver* gDriver *)
  heap : option AudioHALDriver;     (* the allocated block; None when not live *)
  memory : mem;                     (* memory owned by the host *)
  events : list event               (* library calls, oldest first *)
}.

Definition set_refCount (d : AudioHALDriver) (n : Z) : AudioHALDriver :=
  mkAudioHALDriver (interface d) (factoryID d) n (host d)
                   (deviceObjectID d) (inputChannels d) (outputChannels d).
Definition set_host (d : AudioHALDriver) (h : Z) : AudioHALDriver :=
  mkAudioHALDriver (interface d) (factoryID d) (refCount d) h
                   (deviceObjectID d) (inputChannels d) (outputChannels d).
Definition set_deviceObjectID (d : AudioHALDriver) (i : Z) : AudioHALDriver :=
  mkAudioHALDriver (interface d) (factoryID d) (refCount d) (host d)
                   i (inputChannels d) (outputChannels d).

(** ** The monad of entry points: state passing, [None] for a fault
    (dereferencing a null or freed driver pointer). *)

Definition M (A : Type) : Type := State -> option (A * State).

Definition ret {A} (a : A) : M A := fun s => Some (a, s).
Definition bind {A B} (c : M A) (k : A -> M B) : M B :=
  fun s => match c s with
           | Some (a, s') => k a s'
           | None => None
           end.

Declare Scope hal_scope.
Delimit Scope hal_scope with hal.
Notation "x <- c ;; k" := (bind c (fun x => k))
  (at level 61, c at next level, right associativity) : hal_scope.
Notation "c ;; k" := (bind c (fun _ => k))
  (at level 61, right associativity) : hal_scope.
Local Open Scope hal_scope.

Definition get_gDriver : M DriverRef := fun s => Some (gDriver s, s).
Definition set_gDriver (p : DriverRef) : M unit :=
  fun s => Some (tt, mkState p (heap s) (memory s) (events s)).

(** Read the struct behind a driver pointer. *)
Definition deref (p : DriverRef) : M AudioHALDriver :=
  fun s => match p, heap s with
           | DriverBlock, Some d => Some (d, s)
           | _, _ => None
           end.
(** Write the struct behind a driver pointer. *)
Definition assign (p : DriverRef) (d : AudioHALDriver) : M unit :=
  fun s => match p, heap s with
           | DriverBlock, Some _ =>
               Some (tt, mkState (gDriver s) (Some d) (memory s) (events s))
           | _, _ => None
           end.
Definition emit (e : event) : M unit :=
  fun s => Some (tt, mkState (gDriver s) (heap s) (memory s) (events s ++ [e])).
Definition write (f : mem -> mem) : M unit :=
  fun s => Some (tt, mkState (gDriver s) (heap s) (f (memory s)) (events s)).

Definition nl : string := String (ascii_of_nat 10) EmptyString.
Definition fprintf (msg : string) : M unit := emit (fprintf_stderr (msg ++ nl)%string).

(** [malloc(sizeof(AudioHALDriver))]; whether the allocator succeeds is the
    caller's parameter [ok].  A fresh block holds indeterminate fields, which
    the factory overwrites before anything reads them. *)
Definition malloc (ok : bool) (init : AudioHALDriver) : M DriverRef :=
  fun s => Some (if ok then DriverBlock else NullDriver,
                 mkState (gDriver s) (if ok then Some init else heap s)
                         (memory s) (events s ++ [malloc_AudioHALDriver ok])).
Definition free (p : DriverRef) : M unit :=
  fun s => match p, heap s with
           | DriverBlock, Some _ =>
               Some (tt, mkState (gDriver s) None (memory s)
                                 (events s ++ [free_AudioHALDriver]))
           | NullDriver, _ =>
               Some (tt, s)
           | DriverBlock, None => None
           end.

(** ** COM interface (source lines 137-155) *)

Definition AddRef (inDriver : DriverRef) : M Z :=
  driver <- deref inDriver ;;
  let driver := set_refCount driver (to_UInt32 (refCount driver + 1)) in
  assign inDriver driver ;;
  ret (refCount driver).

Definition Release (inDriver : DriverRef) : M Z :=
  driver <- deref inDriver ;;
  let driver := set_refCount driver (to_UInt32 (refCount driver - 1)) in
  assign inDriver driver ;;
  if refCount driver =? 0 then
    emit (CFPlugInRemoveInstanceForFactory (factoryID driver)) ;;
    free inDriver ;;
    set_gDriver NullDriver ;;
    ret 0
  else
    ret (refCount driver).

(** ** Factory (source lines 89-114) *)

Definition AudioHALDriverFactory (malloc_ok : bool) (allocator : Z) (typeID : CFUUID)
  : M DriverRef :=
  fprintf "AudioHALDriver: Factory called" ;;
  if CFEqual typeID kAudioServerPlugInTypeUUID then
    g <- get_gDriver ;;
    match g with
    | NullDriver =>
        p <- malloc malloc_ok
               (mkAudioHALDriver gAudioServerPlugInDriverInterface
                                 kAudioHALDriverFactoryUUID 1 NULL 0 16 16) ;;
        set_gDriver p ;;
        match p with
        | NullDriver => ret tt
        | DriverBlock =>
            emit (CFPlugInAddInstanceForFactory kAudioHALDriverFactoryUUID) ;;
            fprintf "AudioHALDriver: Driver instance created"
        end
    | DriverBlock => _ <- AddRef g ;; ret tt
    end ;;
    get_gDriver
  else
    ret NullDriver.

(** ** Driver operations (source lines 159-202) *)

Definition Initialize (inDriver : DriverRef) (inHost : Z) : M OSStatus :=
  fprintf "AudioHALDriver: Initialize called" ;;
  driver <- deref inDriver ;;
  assign inDriver (set_host driver inHost) ;;
  driver <- deref inDriver ;;
  assign inDriver (set_deviceObjectID driver 1) ;;
  fprintf "AudioHALDriver: Initialized successfully" ;;
  ret kAudioHardwareNoError.

Definition CreateDevice (inDriver : DriverRef) (inDescription : Z) (inClientInfo : Z)
    (outDeviceObjectID : Z) : M OSStatus :=
  fprintf "AudioHALDriver: CreateDevice called" ;;
  write (fun m => store_UInt32 m outDeviceObjectID 0) ;;
  ret kAudioHardwareNoError.

Definition DestroyDevice (inDriver : DriverRef) (inDeviceObjectID : AudioObjectID)
  : M OSStatus :=
  fprintf "AudioHALDriver: DestroyDevice called" ;;
  ret kAudioHardwareNoError.

Definition AddDeviceClient (inDriver : DriverRef) (inDeviceObjectID : AudioObjectID)
    (inClientInfo : Z) : M OSStatus :=
  fprintf "AudioHALDriver: AddDeviceClient called" ;;
  ret kAudioHardwareNoError.

Definition RemoveDeviceClient (inDriver : DriverRef) (inDeviceObjectID : AudioObjectID)
    (inClientInfo : Z) : M OSStatus :=
  fprintf "AudioHALDriver: RemoveDeviceClient called" ;;
  ret kAudioHardwareNoError.

Definition PerformDeviceConfigurationChange (inDriver : DriverRef)
    (inDeviceObjectID : AudioObjectID) (inChangeAction : Z) (inChangeInfo : Z)
  : M OSStatus :=
  fprintf "AudioHALDriver: PerformDeviceConfigurationChange called" ;;
  ret kAudioHardwareNoError.

Definition AbortDeviceConfigurationChange (inDriver : DriverRef)
    (inDeviceObjectID : AudioObjectID) (inChangeAction : Z) (inChangeInfo : Z)
  : M OSStatus :=
  fprintf "AudioHALDriver: AbortDeviceConfigurationChange called" ;;
  ret kAudioHardwareNoError.

(** ** Property operations (source lines 206-326) *)

(** [AudioObjectPropertyAddress], read through the [inAddress] pointer. *)
Record AudioObjectPropertyAddress : Type := mkAddress {
  mSelector : Z;
  mScope : Z;
  mElement : Z
}.

Definition HasProperty (inDriver : DriverRef) (inObjectID : AudioObjectID)
    (inClientProcessID : Z) (inAddress : AudioObjectPropertyAddress) : M bool :=
  let sel := mSelector inAddress in
  if (sel =? kAudioObjectPropertyName)
     || (sel =? kAudioObjectPropertyManufacturer)
     || (sel =? kAudioDevicePropertyDeviceUID)
     || (sel =? kAudioDevicePropertyStreams)
     || (sel =? kAudioDevicePropertyStreamConfiguration)
     || (sel =? kAudioDevicePropertyNominalSampleRate)
     || (sel =? kAudioDevicePropertyAvailableNominalSampleRates)
  then ret true
  else ret false.

Definition IsPropertySettable (inDriver : DriverRef) (inObjectID : AudioObjectID)
    (inClientProcessID : Z) (inAddress : AudioObjectPropertyAddress)
    (outIsSettable : Z) : M OSStatus :=
  write (fun m => store_Boolean m outIsSettable false) ;;
  ret kAudioHardwareNoError.

Definition GetPropertyDataSize (inDriver : DriverRef) (inObjectID : AudioObjectID)
    (inClientProcessID : Z) (inAddress : AudioObjectPropertyAddress)
    (inQualifierDataSize : Z) (inQualifierData : Z) (outDataSize : Z) : M OSStatus :=
  let sel := mSelector inAddress in
  (if (sel =? kAudioObjectPropertyName)
      || (sel =? kAudioObjectPropertyManufacturer)
      || (sel =? kAudioDevicePropertyDeviceUID)
   then
     write (fun m => store_UInt32 m outDataSize sizeof_CFStringRef)
   else if sel =? kAudioDevicePropertyStreamConfiguration then
     (* Up to 16 channels *)
     write (fun m => store_UInt32 m outDataSize
              (to_size_t (sizeof_AudioBufferList + to_size_t (15 * sizeof_AudioBuffer))))
   else if sel =? kAudioDevicePropertyNominalSampleRate then
     write (fun m => store_UInt32 m outDataSize sizeof_Float64)
   else if sel =? kAudioDevicePropertyAvailableNominalSampleRates then
     (* 44.1, 48, 96 kHz *)
     write (fun m => store_UInt32 m outDataSize (to_size_t (sizeof_AudioValueRange * 3)))
   else if sel =? kAudioDevicePropertyStreams then
     (* No streams for now *)
     write (fun m => store_UInt32 m outDataSize 0)
   else
     write (fun m => store_UInt32 m outDataSize 0)) ;;
  ret kAudioHardwareNoError.

(** The body of the loop [for (UInt32 i = 0; i < numChannels; i++)] of the
    stream-configuration case, run for the [remaining] indices from [i]. *)
Fixpoint fill_mBuffers (remaining : nat) (i : Z) (bufferList : Z) (m : mem) : mem :=
  match remaining with
  | O => m
  | S remaining' =>
      let entry := bufferList + offsetof_mBuffers + i * sizeof_AudioBuffer in
      let m := store_UInt32 m (entry + offsetof_mNumberChannels) 1 in
      let m := store_UInt32 m (entry + offsetof_mDataByteSize) 0 in
      let m := store_pointer m (entry + offsetof_mData) NULL in
      fill_mBuffers remaining' (i + 1) bufferList m
  end.

(** [sizeof(AudioBufferList) + ((numChannels - 1) * sizeof(AudioBuffer))]:
    the subtraction is done in [UInt32], the product and the sum in [size_t]. *)
Definition stream_configuration_size (numChannels : Z) : Z :=
  to_size_t (sizeof_AudioBufferList
             + to_size_t (to_UInt32 (numChannels - 1) * sizeof_AudioBuffer)).

Definition GetPropertyData (inDriver : DriverRef) (inObjectID : AudioObjectID)
    (inClientProcessID : Z) (inAddress : AudioObjectPropertyAddress)
    (inQualifierDataSize : Z) (inQualifierData : Z) (inDataSize : Z)
    (outDataSize : Z) (outData : Z) : M OSStatus :=
  let driver := inDriver in
  let sel := mSelector inAddress in
  (if sel =? kAudioObjectPropertyName then
     if sizeof_CFStringRef <=? inDataSize then
       write (fun m => store_val m outData (CFSTR "SotF")) ;;
       write (fun m => store_UInt32 m outDataSize sizeof_CFStringRef)
     else ret tt
   else if sel =? kAudioObjectPropertyManufacturer then
     if sizeof_CFStringRef <=? inDataSize then
       write (fun m => store_val m outData (CFSTR "Pierre F. Aubert")) ;;
       write (fun m => store_UInt32 m outDataSize sizeof_CFStringRef)
     else ret tt
   else if sel =? kAudioDevicePropertyDeviceUID then
     if sizeof_CFStringRef <=? inDataSize then
       write (fun m => store_val m outData (CFSTR "SotF-001")) ;;
       write (fun m => store_UInt32 m outDataSize sizeof_CFStringRef)
     else ret tt
   else if sel =? kAudioDevicePropertyStreamConfiguration then
     if sizeof_AudioBufferList <=? inDataSize then
       let bufferList := outData in
       numChannels <-
         (* Determine if this is input or output *)
         (if mScope inAddress =? kAudioObjectPropertyScopeInput then
            d <- deref driver ;; ret (inputChannels d)
          else if mScope inAddress =? kAudioObjectPropertyScopeOutput then
            d <- deref driver ;; ret (outputChannels d)
          else ret 0) ;;
       write (fun m => store_UInt32 m (bufferList + offsetof_mNumberBuffers) numChannels) ;;
       write (fill_mBuffers (Z.to_nat numChannels) 0 bufferList) ;;
       write (fun m => store_UInt32 m outDataSize (stream_configuration_size numChannels))
     else ret tt
   else if sel =? kAudioDevicePropertyNominalSampleRate then
     if sizeof_Float64 <=? inDataSize then
       write (fun m => store_val m outData (Float64 44100%float)) ;;
       write (fun m => store_UInt32 m outDataSize sizeof_Float64)
     else ret tt
   else if sel =? kAudioDevicePropertyAvailableNominalSampleRates then
     if to_size_t (sizeof_AudioValueRange * 3) <=? inDataSize then
       let ranges := outData in
       write (fun m => store_val m (ranges + 0 * sizeof_AudioValueRange + offsetof_mMinimum) (Float64 44100%float)) ;;
       write (fun m => store_val m (ranges + 0 * sizeof_AudioValueRange + offsetof_mMaximum) (Float64 44100%float)) ;;
       write (fun m => store_val m (ranges + 1 * sizeof_AudioValueRange + offsetof_mMinimum) (Float64 48000%float)) ;;
       write (fun m => store_val m (ranges + 1 * sizeof_AudioValueRange + offsetof_mMaximum) (Float64 48000%float)) ;;
       write (fun m => store_val m (ranges + 2 * sizeof_AudioValueRange + offsetof_mMinimum) (Float64 96000%float)) ;;
       write (fun m => store_val m (ranges + 2 * sizeof_AudioValueRange + offsetof_mMaximum) (Float64 96000%float)) ;;
       write (fun m => store_UInt32 m outDataSize (to_size_t (sizeof_AudioValueRange * 3)))
     else ret tt
   else
     write (fun m => store_UInt32 m outDataSize 0)) ;;
  ret kAudioHardwareNoError.

Definition SetPropertyData (inDriver : DriverRef) (inObjectID : AudioObjectID)
    (inClientProcessID : Z) (inAddress : AudioObjectPropertyAddress)
    (inQualifierDataSize : Z) (inQualifierData : Z) (inDataSize : Z) (inData : Z)
  : M OSStatus :=
  ret kAudioHardwareUnsupportedOperationError.

(** ** IO operations (source lines 330-376) *)

Definition StartIO (inDriver : DriverRef) (inDeviceObjectID : AudioObjectID)
    (inClientID : Z) : M OSStatus :=
  fprintf "AudioHALDriver: StartIO called" ;;
  ret kAudioHardwareNoError.

Definition StopIO (inDriver : DriverRef) (inDeviceObjectID : AudioObjectID)
    (inClientID : Z) : M OSStatus :=
  fprintf "AudioHALDriver: StopIO called" ;;
  ret kAudioHardwareNoError.

Definition GetZeroTimeStamp (inDriver : DriverRef) (inDeviceObjectID : AudioObjectID)
    (inClientID : Z) (outSampleTime outHostTime outSeed : Z) : M OSStatus :=
  write (fun m => store_val m outSampleTime (Float64 0%float)) ;;
  write (fun m => store_UInt64 m outHostTime 0) ;;
  write (fun m => store_UInt64 m outSeed 0) ;;
  ret kAudioHardwareNoError.

Definition WillDoIOOperation (inDriver : DriverRef) (inDeviceObjectID : AudioObjectID)
    (inClientID : Z) (inOperationID : Z) (outWillDo outWillDoInPlace : Z)
  : M OSStatus :=
  write (fun m => store_Boolean m outWillDo false) ;;
  write (fun m => store_Boolean m outWillDoInPlace false) ;;
  ret kAudioHardwareNoError.

Definition BeginIOOperation (inDriver : DriverRef) (inDeviceObjectID : AudioObjectID)
    (inClientID : Z) (inOperationID : Z) (inIOBufferFrameSize : Z)
    (inIOCycleInfo : Z) : M OSStatus :=
  ret kAudioHardwareNoError.

(** [inIOBufferFrameSize * sizeof(float) * driver->outputChannels], computed in
    [size_t]. *)
Definition io_buffer_size (inIOBufferFrameSize outputChannels : Z) : Z :=
  to_size_t (to_size_t (inIOBufferFrameSize * sizeof_float) * outputChannels).

Definition DoIOOperation (inDriver : DriverRef) (inDeviceObjectID : AudioObjectID)
    (inStreamObjectID : AudioObjectID) (inClientID : Z) (inOperationID : Z)
    (inIOBufferFrameSize : Z) (inIOCycleInfo : Z)
    (ioMainBuffer ioSecondaryBuffer : Z) : M OSStatus :=
  let driver := inDriver in
  (* For now, just pass through silence for all channels *)
  (if negb (ioMainBuffer =? NULL) then
     (* Clear up to 16 output channels *)
     d <- deref driver ;;
     let bufferSize := io_buffer_size inIOBufferFrameSize (outputChannels d) in
     write (fun m => memset m ioMainBuffer 0 bufferSize)
   else ret tt) ;;
  ret kAudioHardwareNoError.

Definition EndIOOperation (inDriver : DriverRef) (inDeviceObjectID : AudioObjectID)
    (inClientID : Z) (inOperationID : Z) (inIOBufferFrameSize : Z)
    (inIOCycleInfo : Z) : M OSStatus :=
  ret kAudioHardwareNoError.

(** ** Scenarios: states and sequences of calls used in the statements *)

(** The state of the process before the host loads the bundle. *)
Definition initial_state : State :=
  mkState NullDriver None (fun _ => Undef) [].

(** The host's first steps: obtain the driver from the factory, then
    [Initialize] it with its host reference. *)
Definition load_and_initialize (inHost : Z) : M OSStatus :=
  p <- AudioHALDriverFactory true NULL kAudioServerPlugInTypeUUID ;;
  Initialize p inHost.

(** Read back a [UInt32] out-parameter, as the host does after a call. *)
Definition read_UInt32 (a : Z) : M Z :=
  fun s => match load_UInt32 (memory s) a with
           | Some v => Some (v, s)
           | None => None
           end.

(** The same call made [n] times in a row, with the values it returned. *)
Fixpoint repeatM {A} (n : nat) (c : M A) : M (list A) :=
  match n with
  | O => ret []
  | S n' => a <- c ;; l <- repeatM n' c ;; ret (a :: l)
  end.

Definition is_free (e : event) : bool :=
  match e with
  | free_AudioHALDriver => true
  | _ => false
  end.

(** How many times the instance has been destroyed so far. *)
Definition count_free (l : list event) : nat := List.length (filter is_free l).

(** The channel count [GetPropertyData] uses for a scope. *)
Definition channels_of_scope (d : AudioHALDriver) (scope : Z) : Z :=
  if scope =? kAudioObjectPropertyScopeInput then inputChannels d
  else if scope =? kAudioObjectPropertyScopeOutput then outputChannels d
  else 0.

(** Everything but the host's memory is the same in both states: the global
    pointer, every field of the driver instance, and the trace of calls. *)
Definition same_driver_state (s s' : State) : Prop :=
  gDriver s' = gDriver s /\ heap s' = heap s /\ events s' = events s.

(** ** Sizes, states and addresses used in the statements *)

(** The driver instance after the factory call and [Initialize] with host
    reference 4096: one reference, device object identifier 1, and 16
    channels in each direction. *)
Definition initialized_driver : AudioHALDriver :=
  mkAudioHALDriver gAudioServerPlugInDriverInterface
                   kAudioHALDriverFactoryUUID 1 4096 1 16 16.

(** The state after the factory call and [Initialize]. *)
Definition initialized_state : State :=
  mkState DriverBlock
          (Some initialized_driver)
          (fun _ => Undef)
          [fprintf_stderr ("AudioHALDriver: Factory called" ++ nl)%string;
           malloc_AudioHALDriver true;
           CFPlugInAddInstanceForFactory kAudioHALDriverFactoryUUID;
           fprintf_stderr ("AudioHALDriver: Driver instance created" ++ nl)%string;
           fprintf_stderr ("AudioHALDriver: Initialize called" ++ nl)%string;
           fprintf_stderr ("AudioHALDriver: Initialized successfully" ++ nl)%string].

(** The size [GetPropertyDataSize] stores for a selector. *)
Definition advertised_size (sel : Z) : Z :=
  if (sel =? kAudioObjectPropertyName)
     || (sel =? kAudioObjectPropertyManufacturer)
     || (sel =? kAudioDevicePropertyDeviceUID)
  then sizeof_CFStringRef
  else if sel =? kAudioDevicePropertyStreamConfiguration
  then sizeof_AudioBufferList + 15 * sizeof_AudioBuffer
  else if sel =? kAudioDevicePropertyNominalSampleRate then sizeof_Float64
  else if sel =? kAudioDevicePropertyAvailableNominalSampleRates
  then sizeof_AudioValueRange * 3
  else 0.

(** The capacity below which [GetPropertyData] skips a selector's case. *)
Definition guarded_size (sel : Z) : Z :=
  if sel =? kAudioObjectPropertyName then sizeof_CFStringRef
  else if sel =? kAudioObjectPropertyManufacturer then sizeof_CFStringRef
  else if sel =? kAudioDevicePropertyDeviceUID then sizeof_CFStringRef
  else if sel =? kAudioDevicePropertyStreamConfiguration then sizeof_AudioBufferList
  else if sel =? kAudioDevicePropertyNominalSampleRate then sizeof_Float64
  else if sel =? kAudioDevicePropertyAvailableNominalSampleRates
  then sizeof_AudioValueRange * 3
  else 0.

(** The size [GetPropertyData] stores in [*outDataSize] when it runs a
    selector's case on driver [d]. *)
Definition reported_size (d : AudioHALDriver) (inAddress : AudioObjectPropertyAddress) : Z :=
  let sel := mSelector inAddress in
  if sel =? kAudioObjectPropertyName then sizeof_CFStringRef
  else if sel =? kAudioObjectPropertyManufacturer then sizeof_CFStringRef
  else if sel =? kAudioDevicePropertyDeviceUID then sizeof_CFStringRef
  else if sel =? kAudioDevicePropertyStreamConfiguration
  then stream_configuration_size (channels_of_scope d (mScope inAddress))
  else if sel =? kAudioDevicePropertyNominalSampleRate then sizeof_Float64
  else if sel =? kAudioDevicePropertyAvailableNominalSampleRates
  then sizeof_AudioValueRange * 3
  else 0.

Ltac case_selector :=
  repeat match goal with
         | |- context [if (?sel =? ?k) then _ else _] =>
             let E := fresh "E" in destruct (Z.eqb_spec sel k) as [E|E]
         | |- context [(?sel =? ?k) || _] =>
             let E := fresh "E" in destruct (Z.eqb_spec sel k) as [E|E];
             cbn [orb]
         end.

Definition stream_configuration_global : AudioObjectPropertyAddress :=
  mkAddress kAudioDevicePropertyStreamConfiguration kAudioObjectPropertyScopeGlobal 0.

Definition stream_configuration_input : AudioObjectPropertyAddress :=
  mkAddress kAudioDevicePropertyStreamConfiguration kAudioObjectPropertyScopeInput 0.

Definition device_name_address : AudioObjectPropertyAddress :=
  mkAddress kAudioObjectPropertyName kAudioObjectPropertyScopeGlobal 0.

(** ** Interface negotiation (source lines 118-135) *)

Definition HRESULT := Z.
Definition S_OK : HRESULT := 0.
(** [((HRESULT)0x80000004L)]: the bit pattern read as a signed 32-bit value. *)
Definition E_NOINTERFACE : HRESULT := 0x80000004 - UInt32_modulus.

(** The identity of [IUnknown], spelled out at source line 123:
    eight bytes [0x00], [0xC0], six bytes [0x00], [0x46]. *)
Definition IUnknownUUID : CFUUID :=
  Eval cbv in (List.repeat 0x00 8 ++ [0xC0] ++ List.repeat 0x00 6 ++ [0x46])%list.

Definition kAudioServerPlugInDriverInterfaceUUID : CFUUID :=
  [0xEE; 0xA5; 0x77; 0x3D; 0xCC; 0x43; 0x49; 0xF1;
   0x8E; 0x00; 0x8F; 0x96; 0xE7; 0xD2; 0x3B; 0x17].

(** Core Foundation objects the driver has created and not yet released are
    passed along explicitly. *)
Definition CFUUIDCreateFromUUIDBytes (bytes : CFUUID) (retained : list CFUUID)
  : CFUUID * list CFUUID :=
  (bytes, bytes :: retained).

Fixpoint CFRelease (u : CFUUID) (retained : list CFUUID) : list CFUUID :=
  match retained with
  | [] => []
  | v :: rest => if CFEqual u v then rest else v :: CFRelease u rest
  end.

Definition load_pointer (m : mem) (a : Z) : option Z := decode_int 8 m a.
Definition load_UInt64 (m : mem) (a : Z) : option Z := decode_int 8 m a.

(** The eight bytes from [a] hold the value [v]. *)
Definition holds_val (m : mem) (a : Z) (v : val) : Prop :=
  forall i, (i < 8)%nat -> m (a + Z.of_nat i) = Fragment v i.

Section Negotiation.

(** The address at which [malloc] placed the driver block. *)
Variable block_address : Z.

Definition address_of (p : DriverRef) : Z :=
  match p with
  | NullDriver => NULL
  | DriverBlock => block_address
  end.

Definition QueryInterface (inDriver : DriverRef) (inUUID : CFUUID) (outInterface : Z)
    (retained : list CFUUID) : M (HRESULT * list CFUUID) :=
  let driver := inDriver in
  (* Create CFUUIDs from the UUIDs for comparison *)
  let (requestedUUID, retained) := CFUUIDCreateFromUUIDBytes inUUID retained in
  let unknownUUID := IUnknownUUID in
  let driverUUID := kAudioServerPlugInDriverInterfaceUUID in
  if CFEqual requestedUUID unknownUUID || CFEqual requestedUUID driverUUID then
    _ <- AddRef driver ;;
    write (fun m => store_pointer m outInterface (address_of driver)) ;;
    let retained := CFRelease requestedUUID retained in
    ret (S_OK, retained)
  else
    let retained := CFRelease requestedUUID retained in
    ret (E_NOINTERFACE, retained).

(** ** The host's view: one call of the interface at a time *)

Inductive call : Type :=
  | Call_AudioHALDriverFactory (malloc_ok : bool) (allocator : Z) (typeID : CFUUID)
  | Call_QueryInterface (inDriver : DriverRef) (inUUID : CFUUID) (outInterface : Z)
                        (retained : list CFUUID)
  | Call_AddRef (inDriver : DriverRef)
  | Call_Release (inDriver : DriverRef)
  | Call_Initialize (inDriver : DriverRef) (inHost : Z)
  | Call_CreateDevice (inDriver : DriverRef) (inDescription inClientInfo out : Z)
  | Call_DestroyDevice (inDriver : DriverRef) (id : AudioObjectID)
  | Call_AddDeviceClient (inDriver : DriverRef) (id : AudioObjectID) (inClientInfo : Z)
  | Call_RemoveDeviceClient (inDriver : DriverRef) (id : AudioObjectID) (inClientInfo : Z)
  | Call_PerformDeviceConfigurationChange (inDriver : DriverRef) (id : AudioObjectID)
                                          (inChangeAction inChangeInfo : Z)
  | Call_AbortDeviceConfigurationChange (inDriver : DriverRef) (id : AudioObjectID)
                                        (inChangeAction inChangeInfo : Z)
  | Call_HasProperty (inDriver : DriverRef) (id : AudioObjectID) (pid : Z)
                     (inAddress : AudioObjectPropertyAddress)
  | Call_IsPropertySettable (inDriver : DriverRef) (id : AudioObjectID) (pid : Z)
                            (inAddress : AudioObjectPropertyAddress) (out : Z)
  | Call_GetPropertyDataSize (inDriver : DriverRef) (id : AudioObjectID) (pid : Z)
                             (inAddress : AudioObjectPropertyAddress)
                             (qsz q outDataSize : Z)
  | Call_GetPropertyData (inDriver : DriverRef) (id : AudioObjectID) (pid : Z)
                         (inAddress : AudioObjectPropertyAddress)
                         (qsz q inDataSize outDataSize outData : Z)
  | Call_SetPropertyData (inDriver : DriverRef) (id : AudioObjectID) (pid : Z)
                         (inAddress : AudioObjectPropertyAddress)
                         (qsz q inDataSize inData : Z)
  | Call_StartIO (inDriver : DriverRef) (id : AudioObjectID) (inClientID : Z)
  | Call_StopIO (inDriver : DriverRef) (id : AudioObjectID) (inClientID : Z)
  | Call_GetZeroTimeStamp (inDriver : DriverRef) (id : AudioObjectID)
                          (inClientID outSampleTime outHostTime outSeed : Z)
  | Call_WillDoIOOperation (inDriver : DriverRef) (id : AudioObjectID)
                           (inClientID inOperationID outWillDo outWillDoInPlace : Z)
  | Call_BeginIOOperation (inDriver : DriverRef) (id : AudioObjectID)
                          (inClientID inOperationID frames inIOCycleInfo : Z)
  | Call_DoIOOperation (inDriver : DriverRef) (id stream : AudioObjectID)
                       (inClientID inOperationID frames inIOCycleInfo main secondary : Z)
  | Call_EndIOOperation (inDriver : DriverRef) (id : AudioObjectID)
                        (inClientID inOperationID frames inIOCycleInfo : Z).

(** The state after a call, when the call returns. *)
Definition after {A} (c : M A) (s : State) : option State :=
  option_map snd (c s).

Definition run_call (c : call) : State -> option State :=
  match c with
  | Call_AudioHALDriverFactory ok a t => after (AudioHALDriverFactory ok a t)
  | Call_QueryInterface p u out r => after (QueryInterface p u out r)
  | Call_AddRef p => after (AddRef p)
  | Call_Release p => after (Release p)
  | Call_Initialize p h => after (Initialize p h)
  | Call_CreateDevice p d i out => after (CreateDevice p d i out)
  | Call_DestroyDevice p id => after (DestroyDevice p id)
  | Call_AddDeviceClient p id i => after (AddDeviceClient p id i)
  | Call_RemoveDeviceClient p id i => after (RemoveDeviceClient p id i)
  | Call_PerformDeviceConfigurationChange p id a i =>
      after (PerformDeviceConfigurationChange p id a i)
  | Call_AbortDeviceConfigurationChange p id a i =>
      after (AbortDeviceConfigurationChange p id a i)
  | Call_HasProperty p id pid addr => after (HasProperty p id pid addr)
  | Call_IsPropertySettable p id pid addr out =>
      after (IsPropertySettable p id pid addr out)
  | Call_GetPropertyDataSize p id pid addr qsz q out =>
      after (GetPropertyDataSize p id pid addr qsz q out)
  | Call_GetPropertyData p id pid addr qsz q n out data =>
      after (GetPropertyData p id pid addr qsz q n out data)
  | Call_SetPropertyData p id pid addr qsz q n data =>
      after (SetPropertyData p id pid addr qsz q n data)
  | Call_StartIO p id c => after (StartIO p id c)
  | Call_StopIO p id c => after (StopIO p id c)
  | Call_GetZeroTimeStamp p id c t h sd => after (GetZeroTimeStamp p id c t h sd)
  | Call_WillDoIOOperation p id c op w wp => after (WillDoIOOperation p id c op w wp)
  | Call_BeginIOOperation p id c op f i => after (BeginIOOperation p id c op f i)
  | Call_DoIOOperation p id st c op f i m2 s2 =>
      after (DoIOOperation p id st c op f i m2 s2)
  | Call_EndIOOperation p id c op f i => after (EndIOOperation p id c op f i)
  end.

(** The states a process can be in: it starts with no driver; the host calls
    entry points one after the other, and writes to its own memory as it
    pleases in between. *)
Inductive reachable : State -> Prop :=
  | reachable_initial : reachable initial_state
  | reachable_call s c s' :
      reachable s -> run_call c s = Some s' -> reachable s'
  | reachable_host_write s m :
      reachable s ->
      reachable (mkState (gDriver s) (heap s) m (events s)).

End Negotiation.

(** Counting the library calls of a trace. *)
Definition is_malloc_ok (e : event) : bool :=
  match e with
  | malloc_AudioHALDriver true => true
  | _ => false
  end.
Definition is_add_instance (e : event) : bool :=
  match e with
  | CFPlugInAddInstanceForFactory _ => true
  | _ => false
  end.
Definition is_remove_instance (e : event) : bool :=
  match e with
  | CFPlugInRemoveInstanceForFactory _ => true
  | _ => false
  end.
Definition is_log (e : event) : bool :=
  match e with
  | fprintf_stderr _ => true
  | _ => false
  end.
Definition count (p : event -> bool) (l : list event) : nat :=
  List.length (filter p l).

(** 1 when a driver block is allocated, 0 when none is. *)
Definition live (s : State) : nat :=
  match heap s with
  | Some _ => 1
  | None => 0
  end.

(** The part of a trace that follows its last successful [malloc] (the whole
    trace when there is none). *)
Fixpoint since_last_malloc (l : list event) : list event :=
  match l with
  | [] => []
  | e :: rest =>
      if existsb is_malloc_ok rest then since_last_malloc rest
      else if is_malloc_ok e then rest
      else e :: rest
  end.

Definition Initialize_done : event :=
  fprintf_stderr ("AudioHALDriver: Initialized successfully" ++ nl)%string.

(** A call that touches neither the global pointer nor the driver block, and
    adds nothing but log lines to the trace. *)
Definition frames {A} (c : M A) : Prop :=
  forall s a s',
    c s = Some (a, s') ->
    gDriver s' = gDriver s
    /\ heap s' = heap s
    /\ exists l, events s' = (events s ++ l)%list /\ forallb is_log l = true.

(** What every reachable state satisfies. *)
Definition driver_invariant (s : State) : Prop :=
  (gDriver s = NullDriver <-> heap s = None)
  /\ count is_malloc_ok (events s) = (count is_free (events s) + live s)%nat
  /\ count is_add_instance (events s)
     = (count is_remove_instance (events s) + live s)%nat
  /\ forall d, heap s = Some d ->
       inputChannels d = 16
       /\ outputChannels d = 16
       /\ factoryID d = kAudioHALDriverFactoryUUID
       /\ is_UInt32 (refCount d)
       /\ (deviceObjectID d = 0
           \/ deviceObjectID d = 1
              /\ In Initialize_done (since_last_malloc (events s))).

(** The entry points that do nothing but log and return: device lifecycle,
    client registration, configuration changes, and the IO brackets. *)
Inductive passive_call : Type :=
  | Passive_DestroyDevice (id : AudioObjectID)
  | Passive_AddDeviceClient (id : AudioObjectID) (inClientInfo : Z)
  | Passive_RemoveDeviceClient (id : AudioObjectID) (inClientInfo : Z)
  | Passive_PerformDeviceConfigurationChange (id : AudioObjectID)
                                             (inChangeAction inChangeInfo : Z)
  | Passive_AbortDeviceConfigurationChange (id : AudioObjectID)
                                           (inChangeAction inChangeInfo : Z)
  | Passive_StartIO (id : AudioObjectID) (inClientID : Z)
  | Passive_StopIO (id : AudioObjectID) (inClientID : Z)
  | Passive_BeginIOOperation (id : AudioObjectID)
                             (inClientID inOperationID frames inIOCycleInfo : Z)
  | Passive_EndIOOperation (id : AudioObjectID)
                           (inClientID inOperationID frames inIOCycleInfo : Z).

Definition run_passive (inDriver : DriverRef) (c : passive_call) : M OSStatus :=
  match c with
  | Passive_DestroyDevice id => DestroyDevice inDriver id
  | Passive_AddDeviceClient id i => AddDeviceClient inDriver id i
  | Passive_RemoveDeviceClient id i => RemoveDeviceClient inDriver id i
  | Passive_PerformDeviceConfigurationChange id a i =>
      PerformDeviceConfigurationChange inDriver id a i
  | Passive_AbortDeviceConfigurationChange id a i =>
      AbortDeviceConfigurationChange inDriver id a i
  | Passive_StartIO id c => StartIO inDriver id c
  | Passive_StopIO id c => StopIO inDriver id c
  | Passive_BeginIOOperation id c op f i => BeginIOOperation inDriver id c op f i
  | Passive_EndIOOperation id c op f i => EndIOOperation inDriver id c op f i
  end.

(** A list of calls, one after the other, with the statuses returned. *)
Fixpoint sequence {A} (cs : list (M A)) : M (list A) :=
  match cs with
  | [] => ret []
  | c :: rest => a <- c ;; l <- sequence rest ;; ret (a :: l)
  end.

(** The instance the factory builds (source lines 96-103). *)
Definition fresh_driver : AudioHALDriver :=
  mkAudioHALDriver gAudioServerPlugInDriverInterface
                   kAudioHALDriverFactoryUUID 1 NULL 0 16 16.

Definition Factory_called : event :=
  fprintf_stderr ("AudioHALDriver: Factory called" ++ nl)%string.
Definition Driver_instance_created : event :=
  fprintf_stderr ("AudioHALDriver: Driver instance created" ++ nl)%string.

(** [GetPropertyData], asked for selector [sel] with capacity [n], succeeds,
    leaves the value [v] in the first eight bytes of the output buffer and
    reports [size] bytes. *)
Definition answers_with (inDriver : DriverRef) (inObjectID : AudioObjectID)
    (pid : Z) (scope elem qsz q n outDataSize outData : Z) (s : State)
    (sel : Z) (v : val) (size : Z) : Prop :=
  exists s',
    GetPropertyData inDriver inObjectID pid (mkAddress sel scope elem) qsz q
                    n outDataSize outData s
    = Some (kAudioHardwareNoError, s')
    /\ holds_val (memory s') outData v
    /\ load_UInt32 (memory s') outDataSize = Some size.

(** The three nominal sample rates, by index in the array of ranges. *)
Definition available_rates : list (Z * float) :=
  [(0, 44100%float); (1, 48000%float); (2, 96000%float)].

(** * Properties *)

(** ** Memory lemmas *)

Lemma in_range_true a n x : a <= x < a + n -> in_range a n x = true.
Proof.
  intros H. unfold in_range.
  apply andb_true_iff. split; [apply Z.leb_le | apply Z.ltb_lt]; lia.
Qed.

Lemma in_range_false a n x : ~ (a <= x < a + n) -> in_range a n x = false.
Proof.
  intros H. unfold in_range.
  destruct (Z.leb_spec a x); destruct (Z.ltb_spec x (a + n)); simpl; auto; lia.
Qed.

Lemma store_bytes_inside m a bs x :
  a <= x < a + Z.of_nat (List.length bs) ->
  store_bytes m a bs x = nth (Z.to_nat (x - a)) bs Undef.
Proof.
  intros H. unfold store_bytes. now rewrite in_range_true.
Qed.

Lemma store_bytes_outside m a bs x :
  ~ (a <= x < a + Z.of_nat (List.length bs)) ->
  store_bytes m a bs x = m x.
Proof.
  intros H. unfold store_bytes. now rewrite in_range_false.
Qed.

Lemma encode_int_length n v : List.length (encode_int n v) = n.
Proof.
  revert v. induction n as [|n IH]; intros v; simpl; [reflexivity|].
  now rewrite IH.
Qed.

Lemma decode_encode_UInt32 v :
  0 <= v < UInt32_modulus ->
  v mod 256 + 256 * ((v / 256) mod 256
    + 256 * ((v / 256 / 256) mod 256
    + 256 * ((v / 256 / 256 / 256) mod 256 + 256 * 0))) = v.
Proof.
  unfold UInt32_modulus. intros H.
  change (2 ^ 32) with 4294967296 in H.
  Z.div_mod_to_equations. lia.
Qed.

Lemma to_UInt32_range x : 0 <= to_UInt32 x < UInt32_modulus.
Proof. unfold to_UInt32. apply Z.mod_pos_bound. reflexivity. Qed.

Lemma to_UInt32_small x : 0 <= x < UInt32_modulus -> to_UInt32 x = x.
Proof. intros H. unfold to_UInt32. now apply Z.mod_small. Qed.

Lemma to_size_t_small x : 0 <= x < size_t_modulus -> to_size_t x = x.
Proof. intros H. unfold to_size_t. now apply Z.mod_small. Qed.

(** Reading a [UInt32] back from where it was just stored. *)
Lemma load_store_UInt32 m a v :
  load_UInt32 (store_UInt32 m a v) a = Some (to_UInt32 v).
Proof.
  unfold load_UInt32, store_UInt32.
  pose proof (to_UInt32_range v) as Hr.
  set (w := to_UInt32 v) in *.
  cbn [decode_int encode_int]. unfold load_byte.
  rewrite !store_bytes_inside by (cbn [List.length]; lia).
  replace (a - a) with 0 by lia.
  replace (a + 1 - a) with 1 by lia.
  replace (a + 1 + 1 - a) with 2 by lia.
  replace (a + 1 + 1 + 1 - a) with 3 by lia.
  change (Z.to_nat 0) with 0%nat. change (Z.to_nat 1) with 1%nat.
  change (Z.to_nat 2) with 2%nat. change (Z.to_nat 3) with 3%nat.
  cbn [nth]. f_equal. now apply decode_encode_UInt32.
Qed.

Lemma load_store_Boolean m a b :
  load_Boolean (store_Boolean m a b) a = Some b.
Proof.
  unfold load_Boolean, store_Boolean, load_byte.
  rewrite store_bytes_inside by (simpl; lia).
  replace (a - a) with 0 by lia.
  destruct b; reflexivity.
Qed.

Lemma store_UInt32_outside m a v x :
  ~ (a <= x < a + 4) -> store_UInt32 m a v x = m x.
Proof.
  intros H. unfold store_UInt32. apply store_bytes_outside.
  rewrite encode_int_length. simpl. lia.
Qed.

Lemma store_pointer_outside m a p x :
  ~ (a <= x < a + 8) -> store_pointer m a p x = m x.
Proof.
  intros H. unfold store_pointer. apply store_bytes_outside.
  rewrite encode_int_length. simpl. lia.
Qed.

Lemma memset_inside m a c n x :
  a <= x < a + n -> memset m a c n x = Byte (c mod 256).
Proof. intros H. unfold memset. now rewrite in_range_true. Qed.

Lemma memset_outside m a c n x :
  ~ (a <= x < a + n) -> memset m a c n x = m x.
Proof. intros H. unfold memset. now rewrite in_range_false. Qed.

(** ** The first calls of a session *)

Lemma initialized_state_reached :
  load_and_initialize 4096 initial_state
  = Some (kAudioHardwareNoError, initialized_state).
Proof. reflexivity. Qed.

(** ** Running the monad *)

Lemma bind_inv {A B} (c : M A) (k : A -> M B) s r s' :
  bind c k s = Some (r, s') ->
  exists a s1, c s = Some (a, s1) /\ k a s1 = Some (r, s').
Proof.
  unfold bind. destruct (c s) as [[a s1]|]; [|discriminate].
  intros H. now exists a, s1.
Qed.

Lemma ret_inv {A} (a r : A) s s' : ret a s = Some (r, s') -> r = a /\ s' = s.
Proof. unfold ret. intros H. inversion H. auto. Qed.

(** An entry point of the shape [body ;; return status] can only return
    [status]. *)
Lemma final_status {A} (body : M A) (status : OSStatus) s r s' :
  (body ;; ret status) s = Some (r, s') -> r = status.
Proof.
  intros H. apply bind_inv in H. destruct H as (a & s1 & _ & H).
  now apply ret_inv in H.
Qed.

Lemma store_Boolean_outside m a b x : x <> a -> store_Boolean m a b x = m x.
Proof.
  intros H. unfold store_Boolean. apply store_bytes_outside. simpl. lia.
Qed.

Lemma load_Boolean_ext m m' a : m' a = m a -> load_Boolean m' a = load_Boolean m a.
Proof. intros H. unfold load_Boolean, load_byte. now rewrite H. Qed.

(** ** C10: the driver declines every IO operation *)

(** C10. For every operation identifier, [WillDoIOOperation] stores false in
    both [*outWillDo] and [*outWillDoInPlace] and returns
    [kAudioHardwareNoError]; it writes nowhere else and leaves the driver
    instance as it was. *)
Theorem WillDoIOOperation_declines_every_operation :
  forall inDriver inDeviceObjectID inClientID inOperationID
         outWillDo outWillDoInPlace s,
  exists s',
    WillDoIOOperation inDriver inDeviceObjectID inClientID inOperationID
                      outWillDo outWillDoInPlace s
    = Some (kAudioHardwareNoError, s')
    /\ load_Boolean (memory s') outWillDo = Some false
    /\ load_Boolean (memory s') outWillDoInPlace = Some false
    /\ same_driver_state s s'
    /\ (forall a, a <> outWillDo -> a <> outWillDoInPlace ->
                  memory s' a = memory s a).
Proof.
  intros. eexists. split; [reflexivity|]. cbn [memory].
  repeat split.
  - destruct (Z.eq_dec outWillDo outWillDoInPlace) as [->|Hne].
    + apply load_store_Boolean.
    + rewrite (load_Boolean_ext (store_Boolean (memory s) outWillDo false)).
      * apply load_store_Boolean.
      * now apply store_Boolean_outside.
  - apply load_store_Boolean.
  - intros a H1 H2. now rewrite !store_Boolean_outside.
Qed.

(** ** C7: the property table is read-only *)

(** C7. For every property address [IsPropertySettable] reports false (and
    succeeds, touching nothing but [*outIsSettable]); for every selector
    [SetPropertyData] returns [kAudioHardwareUnsupportedOperationError] and
    leaves the whole state, driver instance included, unchanged. *)
Theorem property_table_is_read_only :
  forall inDriver inObjectID inClientProcessID inAddress outIsSettable
         inQualifierDataSize inQualifierData inDataSize inData s,
    (exists s',
        IsPropertySettable inDriver inObjectID inClientProcessID inAddress
                           outIsSettable s
        = Some (kAudioHardwareNoError, s')
        /\ load_Boolean (memory s') outIsSettable = Some false
        /\ same_driver_state s s'
        /\ (forall a, a <> outIsSettable -> memory s' a = memory s a))
    /\ SetPropertyData inDriver inObjectID inClientProcessID inAddress
                       inQualifierDataSize inQualifierData inDataSize inData s
       = Some (kAudioHardwareUnsupportedOperationError, s).
Proof.
  intros. split; [|reflexivity].
  eexists. split; [reflexivity|]. cbn [memory].
  repeat split.
  - apply load_store_Boolean.
  - intros a Ha. now apply store_Boolean_outside.
Qed.

(** ** C2: object identifiers are not validated *)

(** C2, as stated, fails: on the initialized driver, whose only device has
    identifier 1, [StartIO] for object 42 succeeds and logs its call, and
    [GetPropertyData] for object 42 succeeds and stores the device name. *)
Lemma unknown_object_is_served :
  load_and_initialize 4096 initial_state
  = Some (kAudioHardwareNoError, initialized_state)
  /\ option_map deviceObjectID (heap initialized_state) = Some 1
  /\ 42 <> 1
  /\ (exists s',
         StartIO DriverBlock 42 0 initialized_state
         = Some (kAudioHardwareNoError, s')
         /\ events s'
            = (events initialized_state
               ++ [fprintf_stderr ("AudioHALDriver: StartIO called" ++ nl)%string])%list)
  /\ (exists s',
         GetPropertyData DriverBlock 42 0
           (mkAddress kAudioObjectPropertyName kAudioObjectPropertyScopeGlobal 0)
           0 NULL 8 1000 2000 initialized_state
         = Some (kAudioHardwareNoError, s')
         /\ memory s' 2000 = Fragment (CFSTR "SotF") 0
         /\ load_UInt32 (memory s') 1000 = Some 8)
  /\ kAudioHardwareNoError <> kAudioHardwareBadObjectError.
Proof.
  split; [reflexivity|]. split; [reflexivity|]. split; [discriminate|].
  split; [eexists; split; reflexivity|].
  split; [eexists; repeat split; reflexivity|].
  discriminate.
Qed.

(** C2, amended. No entry point looks at its object identifier: called with
    any two identifiers (the known device's or not) and otherwise equal
    arguments, each of the seventeen entry points that take one behaves the
    same; and whenever a status-returning one of them returns, the status is
    not [kAudioHardwareBadObjectError]. *)
Theorem object_identifier_is_ignored :
  forall (id id' : AudioObjectID) (inDriver : DriverRef)
         (inAddress : AudioObjectPropertyAddress) (x1 x2 x3 x4 x5 x6 x7 : Z),
    (DestroyDevice inDriver id = DestroyDevice inDriver id'
     /\ AddDeviceClient inDriver id x1 = AddDeviceClient inDriver id' x1
     /\ RemoveDeviceClient inDriver id x1 = RemoveDeviceClient inDriver id' x1
     /\ PerformDeviceConfigurationChange inDriver id x1 x2
        = PerformDeviceConfigurationChange inDriver id' x1 x2
     /\ AbortDeviceConfigurationChange inDriver id x1 x2
        = AbortDeviceConfigurationChange inDriver id' x1 x2
     /\ HasProperty inDriver id x1 inAddress = HasProperty inDriver id' x1 inAddress
     /\ IsPropertySettable inDriver id x1 inAddress x2
        = IsPropertySettable inDriver id' x1 inAddress x2
     /\ GetPropertyDataSize inDriver id x1 inAddress x2 x3 x4
        = GetPropertyDataSize inDriver id' x1 inAddress x2 x3 x4
     /\ GetPropertyData inDriver id x1 inAddress x2 x3 x4 x5 x6
        = GetPropertyData inDriver id' x1 inAddress x2 x3 x4 x5 x6
     /\ SetPropertyData inDriver id x1 inAddress x2 x3 x4 x5
        = SetPropertyData inDriver id' x1 inAddress x2 x3 x4 x5
     /\ StartIO inDriver id x1 = StartIO inDriver id' x1
     /\ StopIO inDriver id x1 = StopIO inDriver id' x1
     /\ GetZeroTimeStamp inDriver id x1 x2 x3 x4
        = GetZeroTimeStamp inDriver id' x1 x2 x3 x4
     /\ WillDoIOOperation inDriver id x1 x2 x3 x4
        = WillDoIOOperation inDriver id' x1 x2 x3 x4
     /\ BeginIOOperation inDriver id x1 x2 x3 x4
        = BeginIOOperation inDriver id' x1 x2 x3 x4
     /\ DoIOOperation inDriver id x1 x2 x3 x4 x5 x6 x7
        = DoIOOperation inDriver id' x1 x2 x3 x4 x5 x6 x7
     /\ EndIOOperation inDriver id x1 x2 x3 x4
        = EndIOOperation inDriver id' x1 x2 x3 x4)
    /\ (forall s r s',
           (DestroyDevice inDriver id s = Some (r, s')
            \/ AddDeviceClient inDriver id x1 s = Some (r, s')
            \/ RemoveDeviceClient inDriver id x1 s = Some (r, s')
            \/ PerformDeviceConfigurationChange inDriver id x1 x2 s = Some (r, s')
            \/ AbortDeviceConfigurationChange inDriver id x1 x2 s = Some (r, s')
            \/ IsPropertySettable inDriver id x1 inAddress x2 s = Some (r, s')
            \/ GetPropertyDataSize inDriver id x1 inAddress x2 x3 x4 s = Some (r, s')
            \/ GetPropertyData inDriver id x1 inAddress x2 x3 x4 x5 x6 s = Some (r, s')
            \/ SetPropertyData inDriver id x1 inAddress x2 x3 x4 x5 s = Some (r, s')
            \/ StartIO inDriver id x1 s = Some (r, s')
            \/ StopIO inDriver id x1 s = Some (r, s')
            \/ GetZeroTimeStamp inDriver id x1 x2 x3 x4 s = Some (r, s')
            \/ WillDoIOOperation inDriver id x1 x2 x3 x4 s = Some (r, s')
            \/ BeginIOOperation inDriver id x1 x2 x3 x4 s = Some (r, s')
            \/ DoIOOperation inDriver id x1 x2 x3 x4 x5 x6 x7 s = Some (r, s')
            \/ EndIOOperation inDriver id x1 x2 x3 x4 s = Some (r, s')) ->
           r <> kAudioHardwareBadObjectError).
Proof.
  intros. split.
  - repeat split; reflexivity.
  - intros s r s' H.
    assert (Hr : r = kAudioHardwareNoError
                 \/ r = kAudioHardwareUnsupportedOperationError).
    { repeat (destruct H as [H|H]);
        first [ left; now apply final_status in H
              | right; now apply ret_inv in H
              | left; now apply ret_inv in H
              | left; unfold GetZeroTimeStamp, WillDoIOOperation in H;
                repeat (apply bind_inv in H; destruct H as (? & ? & _ & H));
                now apply ret_inv in H ]. }
    destruct Hr as [-> | ->]; discriminate.
Qed.

(** ** What the property calls do, selector by selector *)

(** [GetPropertyDataSize] always succeeds; its only effect is to store the
    advertised size in [*outDataSize]. *)
Lemma GetPropertyDataSize_run inDriver inObjectID pid inAddress qsz q outDataSize s :
  GetPropertyDataSize inDriver inObjectID pid inAddress qsz q outDataSize s
  = Some (kAudioHardwareNoError,
          mkState (gDriver s) (heap s)
                  (store_UInt32 (memory s) outDataSize
                                (advertised_size (mSelector inAddress)))
                  (events s)).
Proof.
  unfold GetPropertyDataSize, advertised_size.
  case_selector; reflexivity.
Qed.

(** With a capacity below the guard of the selector's case, [GetPropertyData]
    does nothing at all and returns [kAudioHardwareNoError]. *)
Lemma GetPropertyData_skips inDriver inObjectID pid inAddress qsz q
      inDataSize outDataSize outData s :
  0 <= inDataSize < guarded_size (mSelector inAddress) ->
  GetPropertyData inDriver inObjectID pid inAddress qsz q
                  inDataSize outDataSize outData s
  = Some (kAudioHardwareNoError, s).
Proof.
  unfold GetPropertyData, guarded_size.
  case_selector; intros [H0 H];
    try (apply Z.leb_gt in H; unfold bind; rewrite H; reflexivity).
  - change (to_size_t (sizeof_AudioValueRange * 3)) with (sizeof_AudioValueRange * 3).
    apply Z.leb_gt in H. unfold bind. rewrite H. reflexivity.
  - lia.
Qed.

(** With a live driver and a capacity that passes the guard, [GetPropertyData]
    succeeds; it changes only the host's memory, and the last thing it stores
    is the reported size in [*outDataSize]. *)
Lemma GetPropertyData_run inObjectID pid inAddress qsz q
      inDataSize outDataSize outData s d :
  heap s = Some d ->
  guarded_size (mSelector inAddress) <= inDataSize ->
  exists m',
    GetPropertyData DriverBlock inObjectID pid inAddress qsz q
                    inDataSize outDataSize outData s
    = Some (kAudioHardwareNoError,
            mkState (gDriver s) (heap s)
                    (store_UInt32 m' outDataSize (reported_size d inAddress))
                    (events s)).
Proof.
  destruct s as [g h m ev]. cbn [heap gDriver events]. intros -> H.
  revert H. unfold GetPropertyData, guarded_size, reported_size, channels_of_scope.
  change (to_size_t (sizeof_AudioValueRange * 3)) with (sizeof_AudioValueRange * 3).
  case_selector; intros H; apply Z.leb_le in H;
    unfold bind; try rewrite H; eexists; reflexivity.
Qed.

(** The stream-configuration case, spelled out. *)
Lemma GetPropertyData_stream_configuration inObjectID pid scope elem qsz q
      inDataSize outDataSize outData s d :
  heap s = Some d ->
  sizeof_AudioBufferList <= inDataSize ->
  let k := channels_of_scope d scope in
  GetPropertyData DriverBlock inObjectID pid
                  (mkAddress kAudioDevicePropertyStreamConfiguration scope elem)
                  qsz q inDataSize outDataSize outData s
  = Some (kAudioHardwareNoError,
          mkState (gDriver s) (heap s)
            (store_UInt32
               (fill_mBuffers (Z.to_nat k) 0 outData
                  (store_UInt32 (memory s) (outData + offsetof_mNumberBuffers) k))
               outDataSize (stream_configuration_size k))
            (events s)).
Proof.
  destruct s as [g h m ev]. cbn [heap gDriver events memory]. intros -> H.
  apply Z.leb_le in H.
  unfold GetPropertyData, channels_of_scope. cbn [mSelector mScope].
  case_selector; try discriminate; try congruence;
    unfold bind; rewrite H; reflexivity.
Qed.

(** The loop of the stream-configuration case writes only inside the entries
    [mBuffers[i]] .. [mBuffers[i + remaining - 1]]. *)
Lemma fill_mBuffers_outside remaining : forall i bufferList m a,
  0 <= i ->
  ~ (bufferList + offsetof_mBuffers + i * sizeof_AudioBuffer <= a
     < bufferList + offsetof_mBuffers
       + (i + Z.of_nat remaining) * sizeof_AudioBuffer) ->
  fill_mBuffers remaining i bufferList m a = m a.
Proof.
  unfold offsetof_mBuffers, sizeof_AudioBuffer.
  induction remaining as [|n IH]; intros i bufferList m a Hi Ha;
    [reflexivity|].
  cbn [fill_mBuffers]. rewrite IH by lia.
  unfold offsetof_mNumberChannels, offsetof_mDataByteSize, offsetof_mData,
    offsetof_mBuffers, sizeof_AudioBuffer.
  rewrite store_pointer_outside by lia.
  rewrite !store_UInt32_outside by lia.
  reflexivity.
Qed.

Lemma stream_configuration_size_eq k :
  0 <= k < UInt32_modulus ->
  to_UInt32 (stream_configuration_size k)
  = to_UInt32 (offsetof_mBuffers + k * sizeof_AudioBuffer).
Proof.
  unfold stream_configuration_size, to_size_t, to_UInt32, UInt32_modulus,
    size_t_modulus, sizeof_AudioBufferList, sizeof_AudioBuffer, offsetof_mBuffers.
  intros H. change (2 ^ 32) with 4294967296 in *.
  change (2 ^ 64) with 18446744073709551616.
  Z.div_mod_to_equations. lia.
Qed.

Lemma HasProperty_run inDriver inObjectID pid inAddress s :
  exists b, HasProperty inDriver inObjectID pid inAddress s = Some (b, s).
Proof.
  unfold HasProperty.
  destruct (_ || _); eexists; reflexivity.
Qed.

Lemma guarded_le_advertised sel :
  guarded_size sel <= to_UInt32 (advertised_size sel).
Proof.
  unfold guarded_size, advertised_size.
  case_selector; try discriminate; try congruence; vm_compute; discriminate.
Qed.

(** ** C1: size query followed by data query *)

(** C1, as stated, fails: on the initialized driver the stream configuration
    is a supported property under the global scope; its advertised size is
    264 bytes, and [GetPropertyData] with a 264-byte buffer succeeds but
    reports 8 bytes written. *)
Lemma size_query_and_data_query_disagree :
  exists s1 s2,
    HasProperty DriverBlock 1 0 stream_configuration_global initialized_state
    = Some (true, initialized_state)
    /\ GetPropertyDataSize DriverBlock 1 0 stream_configuration_global
                           0 NULL 1000 initialized_state
       = Some (kAudioHardwareNoError, s1)
    /\ load_UInt32 (memory s1) 1000 = Some 264
    /\ GetPropertyData DriverBlock 1 0 stream_configuration_global
                       0 NULL 264 1000 2000 s1
       = Some (kAudioHardwareNoError, s2)
    /\ load_UInt32 (memory s2) 1000 = Some 8
    /\ 8 <> 264.
Proof.
  do 2 eexists.
  split; [reflexivity|]. split; [reflexivity|]. split; [reflexivity|].
  split; [reflexivity|]. split; [reflexivity|]. discriminate.
Qed.

(** C1, amended. For every supported property selector, [GetPropertyDataSize]
    followed by [GetPropertyData] with a buffer of exactly the returned size
    both succeed, and [GetPropertyData] reports that same size, provided that
    for the stream configuration the requested scope has 16 channels (as the
    input and output scopes of the factory-built driver have). *)
Theorem size_query_then_data_query_agree :
  forall inObjectID pid inAddress qsz q outDataSize outDataSize' outData s d,
    heap s = Some d ->
    HasProperty DriverBlock inObjectID pid inAddress s = Some (true, s) ->
    (mSelector inAddress = kAudioDevicePropertyStreamConfiguration ->
     channels_of_scope d (mScope inAddress) = 16) ->
    exists n s1 s2,
      GetPropertyDataSize DriverBlock inObjectID pid inAddress qsz q outDataSize s
      = Some (kAudioHardwareNoError, s1)
      /\ load_UInt32 (memory s1) outDataSize = Some n
      /\ GetPropertyData DriverBlock inObjectID pid inAddress qsz q
                         n outDataSize' outData s1
         = Some (kAudioHardwareNoError, s2)
      /\ load_UInt32 (memory s2) outDataSize' = Some n.
Proof.
  intros inObjectID pid inAddress qsz q outDataSize outDataSize' outData s d
         Hd _ Hk.
  set (n := to_UInt32 (advertised_size (mSelector inAddress))).
  set (s1 := mkState (gDriver s) (heap s)
                     (store_UInt32 (memory s) outDataSize
                                   (advertised_size (mSelector inAddress)))
                     (events s)).
  destruct (GetPropertyData_run inObjectID pid inAddress qsz q n outDataSize'
              outData s1 d Hd (guarded_le_advertised _)) as [m' Hrun].
  exists n, s1. eexists.
  split; [apply GetPropertyDataSize_run|].
  split; [apply load_store_UInt32|].
  split; [exact Hrun|].
  cbn [memory]. rewrite load_store_UInt32. f_equal.
  subst n. revert Hk. unfold reported_size, advertised_size.
  case_selector; try discriminate; try congruence; intros Hk;
    try reflexivity.
  match goal with
  | E : mSelector _ = kAudioDevicePropertyStreamConfiguration |- _ =>
      rewrite (Hk E)
  end.
  reflexivity.
Qed.

(** The stream configuration of the input scope, which has 16 channels on the
    initialized driver: 264 bytes advertised, 264 bytes reported. *)
Lemma size_query_then_data_query_agree_witness :
  exists n s1 s2,
    GetPropertyDataSize DriverBlock 1 0 stream_configuration_input
                        0 NULL 1000 initialized_state
    = Some (kAudioHardwareNoError, s1)
    /\ load_UInt32 (memory s1) 1000 = Some n
    /\ GetPropertyData DriverBlock 1 0 stream_configuration_input
                       0 NULL n 1008 2000 s1
       = Some (kAudioHardwareNoError, s2)
    /\ load_UInt32 (memory s2) 1008 = Some n.
Proof.
  apply (size_query_then_data_query_agree 1 0 stream_configuration_input
           0 NULL 1000 1008 2000 initialized_state initialized_driver).
  - reflexivity.
  - reflexivity.
  - intros _. reflexivity.
Defined.

(** ** C3: the stream-configuration size *)

(** C3, as stated, fails: the advertised size is 264 bytes whatever the
    channel count of the scope.  On the initialized driver the global scope
    has no channels and [GetPropertyData] reports the header-only 8 bytes,
    while [GetPropertyDataSize] returns 264 for it as for every scope. *)
Lemma advertised_stream_configuration_size_is_constant :
  load_and_initialize 4096 initial_state
  = Some (kAudioHardwareNoError, initialized_state)
  /\ channels_of_scope initialized_driver kAudioObjectPropertyScopeGlobal = 0
  /\ option_map fst
       ((s <- GetPropertyDataSize DriverBlock 1 0 stream_configuration_global
                                  0 NULL 1000 ;;
         read_UInt32 1000) initialized_state)
     = Some 264
  /\ option_map fst
       ((s <- GetPropertyData DriverBlock 1 0 stream_configuration_global
                              0 NULL 264 1000 2000 ;;
         read_UInt32 1000) initialized_state)
     = Some offsetof_mBuffers
  /\ 264 <> offsetof_mBuffers.
Proof.
  repeat split; try reflexivity; discriminate.
Qed.

(** C3, amended.  For the stream configuration, [GetPropertyDataSize] returns
    the fixed size [sizeof(AudioBufferList) + 15 * sizeof(AudioBuffer)], the
    size for 16 channels, whatever the scope and its channel count.
    [GetPropertyData], for a scope with [k] channels and given a [UInt32]
    capacity that is at least [sizeof(AudioBufferList)] and at least the size
    of the list of [k] entries, reports
    [sizeof(AudioBufferList) + (k-1) * sizeof(AudioBuffer)] for [k >= 1] and
    the header-only size for [k = 0]; the size it reports is within the
    capacity, and it writes nothing outside that many bytes of [outData] (and
    [*outDataSize]).  For such a scope the two sizes are equal exactly when
    [k = 16]. *)
Theorem stream_configuration_sizes :
  forall inObjectID pid scope elem qsz q inDataSize outDataSize outData s d,
    heap s = Some d ->
    is_UInt32 inDataSize ->
    0 <= channels_of_scope d scope ->
    sizeof_AudioBufferList <= inDataSize ->
    offsetof_mBuffers + channels_of_scope d scope * sizeof_AudioBuffer
    <= inDataSize ->
    let inAddress :=
      mkAddress kAudioDevicePropertyStreamConfiguration scope elem in
    let k := channels_of_scope d scope in
    (exists s1,
        GetPropertyDataSize DriverBlock inObjectID pid inAddress qsz q
                            outDataSize s
        = Some (kAudioHardwareNoError, s1)
        /\ load_UInt32 (memory s1) outDataSize
           = Some (sizeof_AudioBufferList + 15 * sizeof_AudioBuffer))
    /\ (exists s2 n,
           GetPropertyData DriverBlock inObjectID pid inAddress qsz q
                           inDataSize outDataSize outData s
           = Some (kAudioHardwareNoError, s2)
           /\ load_UInt32 (memory s2) outDataSize = Some n
           /\ (1 <= k -> n = sizeof_AudioBufferList + (k - 1) * sizeof_AudioBuffer)
           /\ (k = 0 -> n = offsetof_mBuffers)
           /\ n <= inDataSize
           /\ (forall a, ~ (outData <= a < outData + n) ->
                         ~ (outDataSize <= a < outDataSize + 4) ->
                         memory s2 a = memory s a)
           /\ (n = sizeof_AudioBufferList + 15 * sizeof_AudioBuffer <-> k = 16)).
Proof.
  intros inObjectID pid scope elem qsz q inDataSize outDataSize outData s d
         Hd Hcap32 Hk0 Hcap Hfits inAddress k.
  fold k in Hk0, Hfits.
  unfold is_UInt32, UInt32_modulus in Hcap32.
  change (2 ^ 32) with 4294967296 in Hcap32.
  unfold offsetof_mBuffers, sizeof_AudioBuffer in Hfits.
  assert (Hn : to_UInt32 (stream_configuration_size k)
               = offsetof_mBuffers + k * sizeof_AudioBuffer).
  { rewrite stream_configuration_size_eq
      by (unfold UInt32_modulus; change (2 ^ 32) with 4294967296; lia).
    apply to_UInt32_small. unfold UInt32_modulus, offsetof_mBuffers, sizeof_AudioBuffer.
    change (2 ^ 32) with 4294967296. lia. }
  split.
  - eexists. split; [apply GetPropertyDataSize_run|].
    cbn [memory]. rewrite load_store_UInt32. reflexivity.
  - eexists. exists (offsetof_mBuffers + k * sizeof_AudioBuffer).
    split; [apply (GetPropertyData_stream_configuration _ _ _ _ _ _ _ _ _ _ d Hd Hcap)|].
    cbn [memory]. fold k.
    split; [rewrite load_store_UInt32; now rewrite Hn|].
    unfold sizeof_AudioBufferList, offsetof_mBuffers, sizeof_AudioBuffer.
    split; [intros; lia|]. split; [intros; lia|]. split; [lia|].
    split; [|lia].
    intros a Ha Hb.
    rewrite store_UInt32_outside by exact Hb.
    rewrite fill_mBuffers_outside;
      [| lia
       | unfold offsetof_mBuffers, sizeof_AudioBuffer; rewrite Z2Nat.id by lia; lia ].
    apply store_UInt32_outside. unfold offsetof_mNumberBuffers.
    lia.
Qed.

(** The input scope of the initialized driver, which has 16 channels, with a
    264-byte buffer: 24 + 15 * 16 = 264 bytes are reported. *)
Lemma stream_configuration_sizes_witness :
  (exists s1,
      GetPropertyDataSize DriverBlock 1 0 stream_configuration_input 0 NULL
                          1000 initialized_state
      = Some (kAudioHardwareNoError, s1)
      /\ load_UInt32 (memory s1) 1000 = Some 264)
  /\ (exists s2 n,
         GetPropertyData DriverBlock 1 0 stream_configuration_input 0 NULL
                         264 1000 2000 initialized_state
         = Some (kAudioHardwareNoError, s2)
         /\ load_UInt32 (memory s2) 1000 = Some n
         /\ (1 <= 16 -> n = 24 + (16 - 1) * 16)
         /\ (16 = 0 -> n = 8)
         /\ n <= 264
         /\ (forall a, ~ (2000 <= a < 2000 + n) -> ~ (1000 <= a < 1000 + 4) ->
                       memory s2 a = memory initialized_state a)
         /\ (n = 264 <-> 16 = 16)).
Proof.
  apply (stream_configuration_sizes 1 0 kAudioObjectPropertyScopeInput 0 0 NULL
           264 1000 2000 initialized_state initialized_driver).
  - reflexivity.
  - split; [discriminate | reflexivity].
  - discriminate.
  - discriminate.
  - discriminate.
Defined.

(** ** C4: a buffer that is too small *)

(** C4, as stated, fails: the device name needs 8 bytes; called with a
    capacity of 0, [GetPropertyData] changes nothing but returns
    [kAudioHardwareNoError], the success status. *)
Lemma too_small_buffer_returns_success :
  HasProperty DriverBlock 1 0 device_name_address initialized_state
  = Some (true, initialized_state)
  /\ option_map fst
       ((s <- GetPropertyDataSize DriverBlock 1 0 device_name_address 0 NULL 1000 ;;
         read_UInt32 1000) initialized_state)
     = Some 8
  /\ 0 < 8
  /\ GetPropertyData DriverBlock 1 0 device_name_address 0 NULL 0 1000 2000
                     initialized_state
     = Some (kAudioHardwareNoError, initialized_state)
  /\ kAudioHardwareNoError = 0.
Proof. repeat split. Qed.

(** C4, amended.  Let [n] be the size [GetPropertyDataSize] returns for a
    property.  If the capacity [inDataSize] is smaller than [n] (for
    the stream configuration: smaller than [sizeof(AudioBufferList)]), then
    [GetPropertyData] writes nothing, neither to the output buffer nor to
    [*outDataSize], and leaves the whole state as it was; the status it
    returns is [kAudioHardwareNoError]. *)
Theorem too_small_buffer_is_left_untouched :
  forall inDriver inObjectID pid inAddress qsz q inDataSize
         outDataSize outDataSize' outData s0 s1 n s,
    GetPropertyDataSize inDriver inObjectID pid inAddress qsz q outDataSize s0
    = Some (kAudioHardwareNoError, s1) ->
    load_UInt32 (memory s1) outDataSize = Some n ->
    0 <= inDataSize ->
    inDataSize
    < (if mSelector inAddress =? kAudioDevicePropertyStreamConfiguration
       then sizeof_AudioBufferList else n) ->
    GetPropertyData inDriver inObjectID pid inAddress qsz q
                    inDataSize outDataSize' outData s
    = Some (kAudioHardwareNoError, s).
Proof.
  intros inDriver inObjectID pid inAddress qsz q inDataSize
         outDataSize outDataSize' outData s0 s1 n s Hsize Hload Hpos Hlt.
  rewrite GetPropertyDataSize_run in Hsize.
  injection Hsize as <-. cbn [memory] in Hload.
  rewrite load_store_UInt32 in Hload. injection Hload as <-.
  apply GetPropertyData_skips. split; [exact Hpos|].
  revert Hlt. unfold guarded_size, advertised_size.
  case_selector; try discriminate; try congruence;
    change (to_UInt32 sizeof_CFStringRef) with sizeof_CFStringRef;
    change (to_UInt32 sizeof_Float64) with sizeof_Float64;
    change (to_UInt32 (sizeof_AudioValueRange * 3)) with (sizeof_AudioValueRange * 3);
    change (to_UInt32 0) with 0; intros Hlt; try exact Hlt.
  all: match goal with
       | E : ?x = _, E' : ?x = _ |- _ => rewrite E in E'; discriminate E'
       end.
Qed.

(** The device name with a seven-byte buffer. *)
Lemma too_small_buffer_is_left_untouched_witness :
  GetPropertyData DriverBlock 1 0 device_name_address 0 NULL 7 1000 2000
                  initialized_state
  = Some (kAudioHardwareNoError, initialized_state).
Proof.
  apply (too_small_buffer_is_left_untouched DriverBlock 1 0 device_name_address
           0 NULL 7 1000 1000 2000 initialized_state
           (mkState (gDriver initialized_state) (heap initialized_state)
                    (store_UInt32 (memory initialized_state) 1000 8)
                    (events initialized_state))
           8 initialized_state).
  - reflexivity.
  - reflexivity.
  - lia.
  - reflexivity.
Defined.

(** Between the guard of the stream-configuration case and the size the
    case writes there is a gap: with 16 input channels and a capacity of
    [sizeof(AudioBufferList)] = 24 bytes, the case runs and stores entries up
    to byte 263 of the output buffer. *)
Remark stream_configuration_guard_gap :
  exists s',
    GetPropertyData DriverBlock 1 0 stream_configuration_input 0 NULL
                    24 1000 2000 initialized_state
    = Some (kAudioHardwareNoError, s')
    /\ memory initialized_state (2000 + 263) = Undef
    /\ memory s' (2000 + 263) = Byte 0
    /\ load_UInt32 (memory s') 1000 = Some 264.
Proof. eexists. repeat split. Qed.

(** ** C6: [Initialize] on an initialized driver *)

Lemma Initialize_run inHost s d :
  heap s = Some d ->
  Initialize DriverBlock inHost s
  = Some (kAudioHardwareNoError,
          mkState (gDriver s)
                  (Some (set_deviceObjectID (set_host d inHost) 1))
                  (memory s)
                  ((events s
                    ++ [fprintf_stderr ("AudioHALDriver: Initialize called" ++ nl)%string])
                    ++ [fprintf_stderr
                          ("AudioHALDriver: Initialized successfully" ++ nl)%string])).
Proof.
  destruct s as [g h m ev]. cbn [heap gDriver events memory]. intros ->.
  reflexivity.
Qed.

(** C6, as stated, fails: a second [Initialize], with another host reference,
    on the initialized driver returns [kAudioHardwareNoError] and runs the
    initialization again: the host handle is bound to the new reference. *)
Lemma second_Initialize_is_accepted :
  exists s',
    load_and_initialize 4096 initial_state
    = Some (kAudioHardwareNoError, initialized_state)
    /\ Initialize DriverBlock 8192 initialized_state
       = Some (kAudioHardwareNoError, s')
    /\ option_map host (heap initialized_state) = Some 4096
    /\ option_map host (heap s') = Some 8192
    /\ option_map deviceObjectID (heap s') = Some 1
    /\ events s'
       = (events initialized_state
          ++ [fprintf_stderr ("AudioHALDriver: Initialize called" ++ nl)%string;
              fprintf_stderr ("AudioHALDriver: Initialized successfully" ++ nl)%string])%list.
Proof. eexists. repeat split. Qed.

(** C6, amended.  [Initialize] keeps no record of having run.  Called on a
    driver that an earlier [Initialize] has already initialized, it returns
    [kAudioHardwareNoError] and runs the initialization again: it binds the
    host handle to the reference it is given now, assigns the device object
    identifier 1 again, logs its two messages, and changes nothing else. *)
Theorem Initialize_runs_again :
  forall inHost0 inHost s0 s status0 d,
    Initialize DriverBlock inHost0 s0 = Some (status0, s) ->
    heap s = Some d ->
    host d = inHost0 /\ deviceObjectID d = 1
    /\ exists s' d',
        Initialize DriverBlock inHost s = Some (kAudioHardwareNoError, s')
        /\ heap s' = Some d'
        /\ host d' = inHost
        /\ deviceObjectID d' = 1
        /\ interface d' = interface d
        /\ factoryID d' = factoryID d
        /\ refCount d' = refCount d
        /\ inputChannels d' = inputChannels d
        /\ outputChannels d' = outputChannels d
        /\ gDriver s' = gDriver s
        /\ memory s' = memory s
        /\ events s'
           = (events s
              ++ [fprintf_stderr ("AudioHALDriver: Initialize called" ++ nl)%string;
                  fprintf_stderr
                    ("AudioHALDriver: Initialized successfully" ++ nl)%string])%list.
Proof.
  intros inHost0 inHost s0 s status0 d H0 Hd.
  assert (H1 : host d = inHost0 /\ deviceObjectID d = 1).
  { destruct s0 as [g0 [d0|] m0 ev0]; [|discriminate H0].
    rewrite (Initialize_run inHost0 (mkState g0 (Some d0) m0 ev0) d0 eq_refl) in H0.
    injection H0 as _ <-. cbn [heap] in Hd. injection Hd as <-.
    split; reflexivity. }
  destruct H1 as [Hh Hi]. split; [exact Hh|]. split; [exact Hi|].
  eexists. eexists. split; [apply (Initialize_run inHost s d Hd)|].
  cbn [heap gDriver memory events].
  rewrite <- app_assoc. repeat split.
Qed.

(** A second [Initialize] right after the first of a session. *)
Lemma Initialize_runs_again_witness :
  host initialized_driver = 4096
  /\ deviceObjectID initialized_driver = 1
  /\ exists s' d',
      Initialize DriverBlock 8192 initialized_state
      = Some (kAudioHardwareNoError, s')
      /\ heap s' = Some d'
      /\ host d' = 8192
      /\ deviceObjectID d' = 1
      /\ interface d' = gAudioServerPlugInDriverInterface
      /\ factoryID d' = kAudioHALDriverFactoryUUID
      /\ refCount d' = 1
      /\ inputChannels d' = 16
      /\ outputChannels d' = 16
      /\ gDriver s' = gDriver initialized_state
      /\ memory s' = memory initialized_state
      /\ events s'
         = (events initialized_state
            ++ [fprintf_stderr ("AudioHALDriver: Initialize called" ++ nl)%string;
                fprintf_stderr
                  ("AudioHALDriver: Initialized successfully" ++ nl)%string])%list.
Proof.
  apply (Initialize_runs_again 4096 8192
           (mkState DriverBlock
              (Some (mkAudioHALDriver gAudioServerPlugInDriverInterface
                       kAudioHALDriverFactoryUUID 1 NULL 0 16 16))
              (fun _ => Undef)
              [fprintf_stderr ("AudioHALDriver: Factory called" ++ nl)%string;
               malloc_AudioHALDriver true;
               CFPlugInAddInstanceForFactory kAudioHALDriverFactoryUUID;
               fprintf_stderr ("AudioHALDriver: Driver instance created" ++ nl)%string])
           initialized_state kAudioHardwareNoError
           initialized_driver).
  - reflexivity.
  - reflexivity.
Defined.

(** ** C8: property queries leave the driver instance alone *)

(** C8.  On a live driver, [HasProperty], [IsPropertySettable],
    [GetPropertyDataSize] and [GetPropertyData] all return, and none of them
    changes the global pointer, any field of the driver instance (interface
    reference, factory identity, reference count, host handle, device object
    identifier, channel counts) or the trace of library calls: their only
    effect is on the host's memory. *)
Theorem property_queries_leave_driver_unchanged :
  forall inObjectID pid inAddress outIsSettable qsz q
         inDataSize outDataSize outData s d,
    heap s = Some d ->
    0 <= inDataSize ->
    (exists b s',
        HasProperty DriverBlock inObjectID pid inAddress s = Some (b, s')
        /\ same_driver_state s s' /\ heap s' = Some d
        /\ memory s' = memory s)
    /\ (exists r s',
           IsPropertySettable DriverBlock inObjectID pid inAddress
                              outIsSettable s = Some (r, s')
           /\ same_driver_state s s' /\ heap s' = Some d)
    /\ (exists r s',
           GetPropertyDataSize DriverBlock inObjectID pid inAddress qsz q
                               outDataSize s = Some (r, s')
           /\ same_driver_state s s' /\ heap s' = Some d)
    /\ (exists r s',
           GetPropertyData DriverBlock inObjectID pid inAddress qsz q
                           inDataSize outDataSize outData s = Some (r, s')
           /\ same_driver_state s s' /\ heap s' = Some d).
Proof.
  intros inObjectID pid inAddress outIsSettable qsz q
         inDataSize outDataSize outData s d Hd Hpos.
  split; [|split; [|split]].
  - destruct (HasProperty_run DriverBlock inObjectID pid inAddress s) as [b Hb].
    exists b, s. repeat split; auto.
  - do 2 eexists. split; [reflexivity|]. repeat split; auto.
  - do 2 eexists. split; [apply GetPropertyDataSize_run|]. repeat split; auto.
  - destruct (Z_lt_le_dec inDataSize (guarded_size (mSelector inAddress)))
      as [Hlt|Hle].
    + exists kAudioHardwareNoError, s.
      split; [apply GetPropertyData_skips; lia|]. repeat split; auto.
    + destruct (GetPropertyData_run inObjectID pid inAddress qsz q inDataSize
                  outDataSize outData s d Hd Hle) as [m' Hrun].
      do 2 eexists. split; [exact Hrun|]. repeat split; auto.
Qed.

(** The device name queried on the initialized driver. *)
Lemma property_queries_leave_driver_unchanged_witness :
  exists r s',
    GetPropertyData DriverBlock 1 0 device_name_address 0 NULL
                    8 1000 2000 initialized_state = Some (r, s')
    /\ same_driver_state initialized_state s'
    /\ heap s'
       = Some initialized_driver.
Proof.
  apply (property_queries_leave_driver_unchanged 1 0 device_name_address
           3000 0 NULL 8 1000 2000 initialized_state
           initialized_driver);
    [reflexivity | lia].
Defined.

(** ** C5: reference counting *)

Lemma AddRef_run s d :
  heap s = Some d ->
  AddRef DriverBlock s
  = Some (to_UInt32 (refCount d + 1),
          mkState (gDriver s)
                  (Some (set_refCount d (to_UInt32 (refCount d + 1))))
                  (memory s) (events s)).
Proof.
  destruct s as [g h m ev]. cbn [heap gDriver events memory]. intros ->.
  reflexivity.
Qed.

(** A [Release] that leaves references behind. *)
Lemma Release_run_alive s d :
  heap s = Some d ->
  to_UInt32 (refCount d - 1) <> 0 ->
  Release DriverBlock s
  = Some (to_UInt32 (refCount d - 1),
          mkState (gDriver s)
                  (Some (set_refCount d (to_UInt32 (refCount d - 1))))
                  (memory s) (events s)).
Proof.
  destruct s as [g h m ev]. cbn [heap gDriver events memory]. intros -> H.
  apply Z.eqb_neq in H.
  unfold Release, bind, deref, assign. cbn [heap refCount set_refCount].
  rewrite H. reflexivity.
Qed.

(** The [Release] of the last reference. *)
Lemma Release_run_last s d :
  heap s = Some d ->
  to_UInt32 (refCount d - 1) = 0 ->
  Release DriverBlock s
  = Some (0,
          mkState NullDriver None (memory s)
                  ((events s ++ [CFPlugInRemoveInstanceForFactory (factoryID d)])
                   ++ [free_AudioHALDriver])).
Proof.
  destruct s as [g h m ev]. cbn [heap gDriver events memory]. intros -> H.
  apply Z.eqb_eq in H.
  unfold Release, bind, deref, assign. cbn [heap refCount set_refCount].
  rewrite H. reflexivity.
Qed.

(** A [Release] that returns a nonzero count has destroyed nothing. *)
Lemma Release_nonzero_keeps_instance s r s' :
  Release DriverBlock s = Some (r, s') ->
  r <> 0 ->
  (exists d', heap s' = Some d' /\ refCount d' = r)
  /\ gDriver s' = gDriver s
  /\ memory s' = memory s
  /\ events s' = events s.
Proof.
  intros H Hr.
  destruct (heap s) as [d|] eqn:Hd.
  - destruct (Z.eq_dec (to_UInt32 (refCount d - 1)) 0) as [Hz|Hnz].
    + rewrite (Release_run_last s d Hd Hz) in H. injection H as <- _.
      contradiction.
    + rewrite (Release_run_alive s d Hd Hnz) in H. injection H as <- <-.
      cbn [heap gDriver memory events]. repeat split. eexists. split; reflexivity.
  - destruct s as [g h m ev]. cbn [heap] in Hd. subst h. discriminate H.
Qed.

Lemma repeatM_succ {A} (n : nat) (c : M A) s a s1 l s2 :
  c s = Some (a, s1) ->
  repeatM n c s1 = Some (l, s2) ->
  repeatM (S n) c s = Some (a :: l, s2).
Proof.
  intros H1 H2. cbn [repeatM]. unfold bind. rewrite H1, H2. reflexivity.
Qed.

Lemma set_refCount_twice d x y :
  set_refCount (set_refCount d x) y = set_refCount d y.
Proof. reflexivity. Qed.

Lemma set_refCount_same d : set_refCount d (refCount d) = d.
Proof. now destruct d. Qed.

Lemma to_UInt32_succ c : to_UInt32 (to_UInt32 c + 1) = to_UInt32 (c + 1).
Proof. unfold to_UInt32. apply Z.add_mod_idemp_l. discriminate. Qed.

Lemma to_UInt32_pred c : to_UInt32 (to_UInt32 c - 1) = to_UInt32 (c - 1).
Proof. unfold to_UInt32. apply Zminus_mod_idemp_l. Qed.

(** [n] calls of [AddRef] add [n] to the count, modulo 2^32, and do nothing
    else. *)
Lemma repeat_AddRef (n : nat) : forall s d c,
  heap s = Some d ->
  refCount d = to_UInt32 c ->
  exists l s',
    repeatM n (AddRef DriverBlock) s = Some (l, s')
    /\ heap s' = Some (set_refCount d (to_UInt32 (c + Z.of_nat n)))
    /\ gDriver s' = gDriver s
    /\ memory s' = memory s
    /\ events s' = events s.
Proof.
  induction n as [|n IH]; intros s d c Hd Hc.
  - exists [], s. split; [reflexivity|].
    rewrite Z.add_0_r, <- Hc, set_refCount_same. auto.
  - pose proof (AddRef_run s d Hd) as Hstep.
    set (d1 := set_refCount d (to_UInt32 (refCount d + 1))) in *.
    set (s1 := mkState (gDriver s) (Some d1) (memory s) (events s)) in *.
    destruct (IH s1 d1 (c + 1) eq_refl) as (l & s' & Hrun & Hh & Hg & Hm & He).
    { subst d1. cbn [refCount set_refCount]. rewrite Hc. apply to_UInt32_succ. }
    eexists. exists s'.
    split; [exact (repeatM_succ n _ s _ s1 l s' Hstep Hrun)|].
    rewrite Hh, Hg, Hm, He. subst d1 s1. cbn [gDriver memory events].
    rewrite set_refCount_twice.
    replace (c + 1 + Z.of_nat n) with (c + Z.of_nat (S n)) by lia. auto.
Qed.

(** From a count of [k + 1], [k + 1] calls of [Release] return
    [k, k-1, ..., 1, 0]; the last one, and only it, destroys the instance. *)
Lemma repeat_Release (k : nat) : forall s d,
  heap s = Some d ->
  Z.of_nat k < UInt32_modulus ->
  refCount d = to_UInt32 (Z.of_nat k + 1) ->
  exists s',
    repeatM (S k) (Release DriverBlock) s
    = Some (map Z.of_nat (rev (seq 0 (S k))), s')
    /\ heap s' = None
    /\ gDriver s' = NullDriver
    /\ memory s' = memory s
    /\ events s'
       = (events s ++ [CFPlugInRemoveInstanceForFactory (factoryID d);
                       free_AudioHALDriver])%list.
Proof.
  induction k as [|k IH]; intros s d Hd Hk Hc.
  - assert (Hz : to_UInt32 (refCount d - 1) = 0) by (rewrite Hc; reflexivity).
    pose proof (Release_run_last s d Hd Hz) as Hstep.
    eexists. split.
    + apply (repeatM_succ 0 _ s _ _ [] _ Hstep). reflexivity.
    + cbn [heap gDriver memory events]. rewrite <- app_assoc. auto.
  - assert (Hv : to_UInt32 (refCount d - 1) = Z.of_nat (S k)).
    { rewrite Hc, to_UInt32_pred.
      replace (Z.of_nat (S k) + 1 - 1) with (Z.of_nat (S k)) by lia.
      apply to_UInt32_small. lia. }
    assert (Hnz : to_UInt32 (refCount d - 1) <> 0) by lia.
    pose proof (Release_run_alive s d Hd Hnz) as Hstep.
    set (d1 := set_refCount d (to_UInt32 (refCount d - 1))) in *.
    set (s1 := mkState (gDriver s) (Some d1) (memory s) (events s)) in *.
    destruct (IH s1 d1 eq_refl) as (s' & Hrun & Hh & Hg & Hm & He).
    { lia. }
    { subst d1. cbn [refCount set_refCount]. rewrite Hv.
      replace (Z.of_nat k + 1) with (Z.of_nat (S k)) by lia.
      symmetry. apply to_UInt32_small. lia. }
    exists s'. split.
    + rewrite seq_S, rev_app_distr. cbn [rev app map Nat.add].
      rewrite <- Hv.
      exact (repeatM_succ (S k) _ s _ s1 _ s' Hstep Hrun).
    + rewrite Hh, Hg, Hm, He. subst d1 s1. cbn [memory events factoryID set_refCount].
      auto.
Qed.

Lemma count_free_destroy l factory :
  count_free (l ++ [CFPlugInRemoveInstanceForFactory factory; free_AudioHALDriver])
  = S (count_free l).
Proof.
  unfold count_free. rewrite filter_app, length_app. cbn. lia.
Qed.

(** C5.  From a live instance with reference count 1, [N] calls of [AddRef]
    followed by [N + 1] calls of [Release] all return; the [Release] calls
    return [N, N-1, ..., 1, 0]; afterwards the instance is freed, the global
    pointer is null, and exactly one [free] has been added to the trace.  And
    any [Release] that returns a nonzero count leaves the instance allocated,
    the global pointer and the trace as they were.  ([N] is below 2^32, the
    range of the [UInt32] counter.) *)
Theorem AddRef_Release_balance :
  forall (N : nat) s d,
    heap s = Some d ->
    refCount d = 1 ->
    Z.of_nat N < UInt32_modulus ->
    (exists adds s',
        (adds <- repeatM N (AddRef DriverBlock) ;;
         rels <- repeatM (S N) (Release DriverBlock) ;;
         ret (adds, rels)) s
        = Some ((adds, map Z.of_nat (rev (seq 0 (S N)))), s')
        /\ heap s' = None
        /\ gDriver s' = NullDriver
        /\ count_free (events s') = S (count_free (events s)))
    /\ (forall t r t',
           Release DriverBlock t = Some (r, t') ->
           r <> 0 ->
           (exists d', heap t' = Some d' /\ refCount d' = r)
           /\ gDriver t' = gDriver t
           /\ events t' = events t).
Proof.
  intros N s d Hd Hone HN. split.
  - destruct (repeat_AddRef N s d 1 Hd Hone)
      as (adds & s1 & Hadd & Hh1 & Hg1 & Hm1 & He1).
    destruct (repeat_Release N s1 _ Hh1 HN) as (s' & Hrel & Hh & Hg & Hm & He).
    { cbn [refCount set_refCount]. f_equal. lia. }
    exists adds, s'. split.
    + unfold bind. rewrite Hadd, Hrel. reflexivity.
    + rewrite Hh, Hg, He, He1. repeat split. apply count_free_destroy.
  - intros t r t' Hrel Hr.
    destruct (Release_nonzero_keeps_instance t r t' Hrel Hr) as (H1 & H2 & _ & H3).
    auto.
Qed.

(** Two [AddRef] and three [Release] on the initialized driver. *)
Lemma AddRef_Release_balance_witness :
  exists adds s',
    (adds <- repeatM 2 (AddRef DriverBlock) ;;
     rels <- repeatM 3 (Release DriverBlock) ;;
     ret (adds, rels)) initialized_state
    = Some ((adds, [2; 1; 0]), s')
    /\ heap s' = None
    /\ gDriver s' = NullDriver
    /\ count_free (events s') = S (count_free (events initialized_state)).
Proof.
  apply (AddRef_Release_balance 2 initialized_state
           initialized_driver).
  - reflexivity.
  - reflexivity.
  - reflexivity.
Defined.

(** ** The size of the IO buffer *)

Lemma DoIOOperation_run inDeviceObjectID inStreamObjectID inClientID inOperationID
      inIOBufferFrameSize inIOCycleInfo ioMainBuffer ioSecondaryBuffer s d :
  heap s = Some d ->
  ioMainBuffer <> NULL ->
  DoIOOperation DriverBlock inDeviceObjectID inStreamObjectID inClientID
                inOperationID inIOBufferFrameSize inIOCycleInfo
                ioMainBuffer ioSecondaryBuffer s
  = Some (kAudioHardwareNoError,
          mkState (gDriver s) (heap s)
                  (memset (memory s) ioMainBuffer 0
                          (io_buffer_size inIOBufferFrameSize (outputChannels d)))
                  (events s)).
Proof.
  destruct s as [g h m ev]. cbn [heap gDriver events memory]. intros -> H.
  apply Z.eqb_neq in H.
  unfold DoIOOperation, bind. rewrite H. reflexivity.
Qed.

Lemma io_buffer_size_exact f c :
  0 <= f < UInt32_modulus ->
  0 <= c ->
  f * c * sizeof_float < size_t_modulus ->
  io_buffer_size f c = f * c * sizeof_float.
Proof.
  unfold io_buffer_size, UInt32_modulus, size_t_modulus, sizeof_float.
  intros Hf Hc Hfc.
  change (2 ^ 32) with 4294967296 in Hf.
  change (2 ^ 64) with 18446744073709551616 in Hfc.
  rewrite (to_size_t_small (f * 4))
    by (unfold size_t_modulus; change (2 ^ 64) with 18446744073709551616; lia).
  replace (f * 4 * c) with (f * c * 4) by ring.
  apply to_size_t_small. unfold size_t_modulus.
  change (2 ^ 64) with 18446744073709551616. nia.
Qed.

(** * Beyond the stated properties: the rest of the interface *)

(** ** Calls that leave the driver alone *)

Lemma frames_ret {A} (a : A) : frames (ret a).
Proof.
  intros s r s' H. apply ret_inv in H. destruct H as [_ ->].
  split; [reflexivity|]. split; [reflexivity|].
  exists []. split; [now rewrite app_nil_r | reflexivity].
Qed.

Lemma frames_bind {A B} (c : M A) (k : A -> M B) :
  frames c -> (forall a, frames (k a)) -> frames (bind c k).
Proof.
  intros Hc Hk s r s' H.
  apply bind_inv in H. destruct H as (a & s1 & H1 & H2).
  destruct (Hc _ _ _ H1) as (Hg1 & Hh1 & l1 & He1 & Hl1).
  destruct (Hk a _ _ _ H2) as (Hg2 & Hh2 & l2 & He2 & Hl2).
  split; [congruence|]. split; [congruence|].
  exists (l1 ++ l2)%list. split.
  - rewrite He2, He1. now rewrite app_assoc.
  - rewrite forallb_app, Hl1, Hl2. reflexivity.
Qed.

Lemma frames_write (f : mem -> mem) : frames (write f).
Proof.
  intros s r s' H. unfold write in H. injection H as _ <-.
  split; [reflexivity|]. split; [reflexivity|].
  exists []. split; [cbn; now rewrite app_nil_r | reflexivity].
Qed.

Lemma frames_fprintf (msg : string) : frames (fprintf msg).
Proof.
  intros s r s' H. unfold fprintf, emit in H. injection H as _ <-.
  split; [reflexivity|]. split; [reflexivity|].
  eexists. split; reflexivity.
Qed.

Lemma frames_deref (p : DriverRef) : frames (deref p).
Proof.
  intros s r s' H. unfold deref in H.
  destruct p; [discriminate|].
  destruct s as [g [d|] m ev]; cbn [heap] in H; [|discriminate].
  injection H as _ <-.
  split; [reflexivity|]. split; [reflexivity|].
  exists []. split; [now rewrite app_nil_r | reflexivity].
Qed.

Lemma frames_if {A} (b : bool) (c1 c2 : M A) :
  frames c1 -> frames c2 -> frames (if b then c1 else c2).
Proof. now destruct b. Qed.

Ltac frame_tac :=
  repeat first
    [ apply frames_ret
    | apply frames_write
    | apply frames_fprintf
    | apply frames_deref
    | apply frames_bind; [| intros ?]
    | apply frames_if ].

Lemma frames_CreateDevice p d i out : frames (CreateDevice p d i out).
Proof. unfold CreateDevice. frame_tac. Qed.

Lemma frames_passive p (c : passive_call) : frames (run_passive p c).
Proof.
  destruct c; cbn [run_passive];
    unfold DestroyDevice, AddDeviceClient, RemoveDeviceClient,
      PerformDeviceConfigurationChange, AbortDeviceConfigurationChange,
      StartIO, StopIO, BeginIOOperation, EndIOOperation;
    frame_tac.
Qed.

Lemma frames_HasProperty p id pid addr : frames (HasProperty p id pid addr).
Proof. unfold HasProperty. frame_tac. Qed.

Lemma frames_IsPropertySettable p id pid addr out :
  frames (IsPropertySettable p id pid addr out).
Proof. unfold IsPropertySettable. frame_tac. Qed.

Lemma frames_GetPropertyDataSize p id pid addr qsz q out :
  frames (GetPropertyDataSize p id pid addr qsz q out).
Proof. unfold GetPropertyDataSize. frame_tac. Qed.

Lemma frames_GetPropertyData p id pid addr qsz q n out data :
  frames (GetPropertyData p id pid addr qsz q n out data).
Proof. unfold GetPropertyData. frame_tac. Qed.

Lemma frames_SetPropertyData p id pid addr qsz q n data :
  frames (SetPropertyData p id pid addr qsz q n data).
Proof. unfold SetPropertyData. frame_tac. Qed.

Lemma frames_GetZeroTimeStamp p id c t h sd :
  frames (GetZeroTimeStamp p id c t h sd).
Proof. unfold GetZeroTimeStamp. frame_tac. Qed.

Lemma frames_WillDoIOOperation p id c op w wp :
  frames (WillDoIOOperation p id c op w wp).
Proof. unfold WillDoIOOperation. frame_tac. Qed.

Lemma frames_DoIOOperation p id st c op f i main secondary :
  frames (DoIOOperation p id st c op f i main secondary).
Proof. unfold DoIOOperation. frame_tac. Qed.

(** ** The invariant of reachable states *)

Lemma count_app p l1 l2 : count p (l1 ++ l2) = (count p l1 + count p l2)%nat.
Proof. unfold count. now rewrite filter_app, length_app. Qed.

Lemma count_logs p l :
  (forall msg, p (fprintf_stderr msg) = false) ->
  forallb is_log l = true -> count p l = 0%nat.
Proof.
  intros Hp. unfold count. induction l as [|e l IH]; [reflexivity|].
  cbn [forallb filter]. intros H. apply andb_true_iff in H. destruct H as [He Hl].
  destruct e; try discriminate He. rewrite Hp. now apply IH.
Qed.

Lemma logs_no_malloc l : forallb is_log l = true -> existsb is_malloc_ok l = false.
Proof.
  induction l as [|e l IH]; [reflexivity|].
  cbn [forallb existsb]. intros H. apply andb_true_iff in H. destruct H as [He Hl].
  destruct e; try discriminate He. now rewrite IH.
Qed.

Lemma since_last_malloc_app l1 l2 :
  existsb is_malloc_ok l2 = false ->
  since_last_malloc (l1 ++ l2) = (since_last_malloc l1 ++ l2)%list.
Proof.
  intros H2. induction l1 as [|e l1 IH].
  - destruct l2 as [|e2 l2]; [reflexivity|].
    cbn [app since_last_malloc]. cbn [existsb] in H2.
    apply orb_false_iff in H2. destruct H2 as [He Hl]. now rewrite Hl, He.
  - cbn [app since_last_malloc]. rewrite existsb_app, H2, orb_false_r.
    destruct (existsb is_malloc_ok l1); [exact IH|].
    destruct (is_malloc_ok e); reflexivity.
Qed.

Lemma after_inv {A} (c : M A) s s' :
  after c s = Some s' -> exists a, c s = Some (a, s').
Proof.
  unfold after. destruct (c s) as [[a t]|]; [|discriminate].
  intros H. injection H as <-. now exists a.
Qed.

(** A step that frames the driver keeps the invariant. *)
Lemma invariant_framed s s' l :
  driver_invariant s ->
  gDriver s' = gDriver s ->
  heap s' = heap s ->
  events s' = (events s ++ l)%list ->
  forallb is_log l = true ->
  driver_invariant s'.
Proof.
  intros (Hnull & Hmalloc & Hadd & Hd) Hg Hh He Hl.
  unfold driver_invariant, live. rewrite Hg, Hh, He, !count_app.
  rewrite !(count_logs _ l) by (try reflexivity; exact Hl).
  rewrite !Nat.add_0_r.
  split; [exact Hnull|]. split; [exact Hmalloc|]. split; [exact Hadd|].
  intros d Hsome. destruct (Hd d Hsome) as (H1 & H2 & H3 & H4 & H5).
  repeat (split; [assumption|]).
  destruct H5 as [H5|[H5 H6]]; [now left|right].
  split; [exact H5|].
  rewrite since_last_malloc_app by now apply logs_no_malloc.
  apply in_or_app. now left.
Qed.

Lemma invariant_frames {A} (c : M A) s a s' :
  frames c -> driver_invariant s -> c s = Some (a, s') -> driver_invariant s'.
Proof.
  intros Hc Hinv Hrun.
  destruct (Hc s a s' Hrun) as (Hg & Hh & l & He & Hl).
  exact (invariant_framed s s' l Hinv Hg Hh He Hl).
Qed.

(** A step that only rewrites the reference count, within range. *)
Lemma invariant_recount s d n m :
  driver_invariant s ->
  heap s = Some d ->
  is_UInt32 n ->
  driver_invariant (mkState (gDriver s) (Some (set_refCount d n)) m (events s)).
Proof.
  intros (Hnull & Hmalloc & Hadd & Hd) Hsome Hn.
  unfold driver_invariant, live in *. cbn [gDriver heap events].
  rewrite Hsome in *.
  split; [split; [intros H; apply Hnull in H; discriminate | discriminate]|].
  split; [exact Hmalloc|]. split; [exact Hadd|].
  intros d' Hd'. injection Hd' as <-.
  destruct (Hd d eq_refl) as (H1 & H2 & H3 & H4 & H5).
  cbn [set_refCount inputChannels outputChannels factoryID refCount deviceObjectID].
  auto.
Qed.

Lemma AddRef_inv p s r s' :
  AddRef p s = Some (r, s') ->
  exists d,
    p = DriverBlock /\ heap s = Some d
    /\ r = to_UInt32 (refCount d + 1)
    /\ s' = mkState (gDriver s)
                    (Some (set_refCount d (to_UInt32 (refCount d + 1))))
                    (memory s) (events s).
Proof.
  intros H. destruct p; [discriminate H|].
  destruct (heap s) as [d|] eqn:Hd.
  - rewrite (AddRef_run s d Hd) in H. injection H as <- <-. now exists d.
  - destruct s as [g h m ev]. cbn [heap] in Hd. subst h. discriminate H.
Qed.

Lemma invariant_AddRef p s r s' :
  driver_invariant s -> AddRef p s = Some (r, s') -> driver_invariant s'.
Proof.
  intros Hinv H. apply AddRef_inv in H.
  destruct H as (d & _ & Hd & _ & ->).
  apply invariant_recount; [exact Hinv | exact Hd | apply to_UInt32_range].
Qed.

Lemma invariant_Release p s r s' :
  driver_invariant s -> Release p s = Some (r, s') -> driver_invariant s'.
Proof.
  intros Hinv H. destruct p; [discriminate H|].
  destruct (heap s) as [d|] eqn:Hd.
  - destruct (Z.eq_dec (to_UInt32 (refCount d - 1)) 0) as [Hz|Hnz].
    + rewrite (Release_run_last s d Hd Hz) in H. injection H as _ <-.
      destruct Hinv as (Hnull & Hmalloc & Hadd & _).
      unfold driver_invariant, live in *. cbn [gDriver heap events].
      rewrite Hd in *. rewrite !count_app. cbn. 
      split; [tauto|]. split; [lia|]. split; [lia|]. discriminate.
    + rewrite (Release_run_alive s d Hd Hnz) in H. injection H as _ <-.
      apply invariant_recount; [exact Hinv | exact Hd | apply to_UInt32_range].
  - destruct s as [g h m ev]. cbn [heap] in Hd. subst h. discriminate H.
Qed.

Lemma invariant_Initialize p h s r s' :
  driver_invariant s -> Initialize p h s = Some (r, s') -> driver_invariant s'.
Proof.
  intros Hinv H. destruct p; [destruct s; discriminate H|].
  destruct (heap s) as [d|] eqn:Hd.
  - rewrite (Initialize_run h s d Hd) in H. injection H as _ <-.
    destruct Hinv as (Hnull & Hmalloc & Hadd & Hfields).
    unfold driver_invariant, live in *. cbn [gDriver heap events].
    rewrite Hd in *. rewrite !count_app. cbn [count filter is_malloc_ok is_free
      is_add_instance is_remove_instance List.length]. rewrite !Nat.add_0_r.
    split; [split; [intros H; apply Hnull in H; discriminate | discriminate]|].
    split; [exact Hmalloc|]. split; [exact Hadd|].
    intros d' Hd'. injection Hd' as <-.
    destruct (Hfields d eq_refl) as (H1 & H2 & H3 & H4 & _).
    cbn [set_deviceObjectID set_host inputChannels outputChannels factoryID
           refCount deviceObjectID].
    repeat (split; [assumption|]). right. split; [reflexivity|].
    rewrite <- app_assoc. rewrite since_last_malloc_app by reflexivity.
    apply in_or_app. right. cbn. auto.
  - destruct s as [g h0 m ev]. cbn [heap] in Hd. subst h0. discriminate H.
Qed.

(** ** The factory, case by case *)

Lemma CFEqual_true a b : CFEqual a b = true <-> a = b.
Proof.
  unfold CFEqual. destruct (list_eq_dec Z.eq_dec a b); split; congruence.
Qed.

Lemma CFEqual_refl a : CFEqual a a = true.
Proof. now apply CFEqual_true. Qed.

Lemma Factory_other_type ok allocator typeID s :
  typeID <> kAudioServerPlugInTypeUUID ->
  AudioHALDriverFactory ok allocator typeID s
  = Some (NullDriver,
          mkState (gDriver s) (heap s) (memory s)
                  (events s ++ [Factory_called])).
Proof.
  intros H. unfold AudioHALDriverFactory.
  destruct (CFEqual typeID kAudioServerPlugInTypeUUID) eqn:E;
    [apply CFEqual_true in E; contradiction | reflexivity].
Qed.

Lemma Factory_creates allocator s :
  gDriver s = NullDriver ->
  AudioHALDriverFactory true allocator kAudioServerPlugInTypeUUID s
  = Some (DriverBlock,
          mkState DriverBlock (Some fresh_driver) (memory s)
                  (events s
                   ++ [Factory_called; malloc_AudioHALDriver true;
                       CFPlugInAddInstanceForFactory kAudioHALDriverFactoryUUID;
                       Driver_instance_created])).
Proof.
  destruct s as [g h m ev]. cbn [gDriver events memory]. intros ->.
  unfold AudioHALDriverFactory. rewrite CFEqual_refl.
  unfold bind, fprintf, emit, get_gDriver, malloc, set_gDriver, ret.
  cbn [gDriver heap memory events]. rewrite <- !app_assoc. reflexivity.
Qed.

Lemma Factory_out_of_memory allocator s :
  gDriver s = NullDriver ->
  AudioHALDriverFactory false allocator kAudioServerPlugInTypeUUID s
  = Some (NullDriver,
          mkState NullDriver (heap s) (memory s)
                  (events s ++ [Factory_called; malloc_AudioHALDriver false])).
Proof.
  destruct s as [g h m ev]. cbn [gDriver events memory heap]. intros ->.
  unfold AudioHALDriverFactory. rewrite CFEqual_refl.
  unfold bind, fprintf, emit, get_gDriver, malloc, set_gDriver, ret.
  cbn [gDriver heap memory events]. rewrite <- !app_assoc. reflexivity.
Qed.

Lemma Factory_shares ok allocator s d :
  gDriver s = DriverBlock ->
  heap s = Some d ->
  AudioHALDriverFactory ok allocator kAudioServerPlugInTypeUUID s
  = Some (DriverBlock,
          mkState DriverBlock
                  (Some (set_refCount d (to_UInt32 (refCount d + 1))))
                  (memory s) (events s ++ [Factory_called])).
Proof.
  destruct s as [g h m ev]. cbn [gDriver events memory heap]. intros -> ->.
  unfold AudioHALDriverFactory. rewrite CFEqual_refl. reflexivity.
Qed.

Lemma invariant_Factory ok allocator typeID s r s' :
  driver_invariant s ->
  AudioHALDriverFactory ok allocator typeID s = Some (r, s') ->
  driver_invariant s'.
Proof.
  intros Hinv H.
  destruct (list_eq_dec Z.eq_dec typeID kAudioServerPlugInTypeUUID) as [->|Hne].
  - destruct (gDriver s) eqn:Hg.
    + assert (Hnone : heap s = None) by (now apply (proj1 Hinv)).
      destruct Hinv as (_ & Hmalloc & Hadd & _).
      unfold live in *. rewrite Hnone in *.
      destruct ok.
      * rewrite (Factory_creates allocator s Hg) in H. injection H as _ <-.
        unfold driver_invariant, live. cbn [gDriver heap events].
        rewrite !count_app. cbn [count filter is_malloc_ok is_free Factory_called
          Driver_instance_created is_add_instance is_remove_instance List.length].
        split; [split; discriminate|]. split; [lia|]. split; [lia|].
        intros d Hd. injection Hd as <-.
        repeat (split; [reflexivity|]).
        split; [cbv; split; [discriminate | reflexivity]|].
        now left.
      * rewrite (Factory_out_of_memory allocator s Hg) in H. injection H as _ <-.
        unfold driver_invariant, live. cbn [gDriver heap events].
        rewrite Hnone, !count_app. cbn [count filter is_malloc_ok is_free
          Factory_called is_add_instance is_remove_instance List.length].
        split; [tauto|]. split; [lia|]. split; [lia|]. discriminate.
    + destruct (heap s) as [d|] eqn:Hd.
      * rewrite (Factory_shares ok allocator s d Hg Hd) in H. injection H as _ <-.
        apply (invariant_framed
                 (mkState (gDriver s)
                          (Some (set_refCount d (to_UInt32 (refCount d + 1))))
                          (memory s) (events s)) _ [Factory_called]);
          [ apply invariant_recount; [exact Hinv | exact Hd | apply to_UInt32_range]
          | cbn; congruence | reflexivity | reflexivity | reflexivity ].
      * apply (proj1 Hinv) in Hd. congruence.
  - rewrite (Factory_other_type ok allocator typeID s Hne) in H.
    injection H as _ <-.
    apply (invariant_framed s _ [Factory_called] Hinv); reflexivity.
Qed.

(** ** Interface negotiation, case by case *)

Lemma CFRelease_created u retained : CFRelease u (u :: retained) = retained.
Proof. cbn [CFRelease]. now rewrite CFEqual_refl. Qed.

Lemma QueryInterface_accepts block_address inUUID outInterface retained s d :
  inUUID = IUnknownUUID \/ inUUID = kAudioServerPlugInDriverInterfaceUUID ->
  heap s = Some d ->
  QueryInterface block_address DriverBlock inUUID outInterface retained s
  = Some ((S_OK, retained),
          mkState (gDriver s)
                  (Some (set_refCount d (to_UInt32 (refCount d + 1))))
                  (store_pointer (memory s) outInterface block_address)
                  (events s)).
Proof.
  intros Hu Hd. unfold QueryInterface, CFUUIDCreateFromUUIDBytes.
  rewrite CFRelease_created.
  assert (E : CFEqual inUUID IUnknownUUID
              || CFEqual inUUID kAudioServerPlugInDriverInterfaceUUID = true).
  { apply orb_true_iff. destruct Hu as [->| ->];
      [left | right]; apply CFEqual_refl. }
  rewrite E. unfold bind. rewrite (AddRef_run s d Hd). reflexivity.
Qed.

Lemma QueryInterface_rejects block_address inDriver inUUID outInterface retained s :
  inUUID <> IUnknownUUID ->
  inUUID <> kAudioServerPlugInDriverInterfaceUUID ->
  QueryInterface block_address inDriver inUUID outInterface retained s
  = Some ((E_NOINTERFACE, retained), s).
Proof.
  intros H1 H2. unfold QueryInterface, CFUUIDCreateFromUUIDBytes.
  rewrite CFRelease_created.
  destruct (CFEqual inUUID IUnknownUUID) eqn:E1;
    [apply CFEqual_true in E1; contradiction|].
  destruct (CFEqual inUUID kAudioServerPlugInDriverInterfaceUUID) eqn:E2;
    [apply CFEqual_true in E2; contradiction|].
  reflexivity.
Qed.

Lemma invariant_QueryInterface block_address p u out retained s r s' :
  driver_invariant s ->
  QueryInterface block_address p u out retained s = Some (r, s') ->
  driver_invariant s'.
Proof.
  intros Hinv H. unfold QueryInterface, CFUUIDCreateFromUUIDBytes in H.
  destruct (CFEqual u IUnknownUUID || CFEqual u kAudioServerPlugInDriverInterfaceUUID).
  - apply bind_inv in H. destruct H as (n & s1 & Hadd & H).
    apply (invariant_AddRef _ _ _ _ Hinv) in Hadd.
    revert H. apply invariant_frames; [frame_tac | exact Hadd].
  - apply ret_inv in H. destruct H as [_ ->]. exact Hinv.
Qed.

Section Reachable.

Variable block_address : Z.

Lemma reachable_invariant s : reachable block_address s -> driver_invariant s.
Proof.
  induction 1 as [|s c s' Hs IH Hrun|s m Hs IH].
  - unfold driver_invariant, initial_state, live. cbn.
    split; [tauto|]. split; [reflexivity|]. split; [reflexivity|]. discriminate.
  - destruct c; cbn [run_call] in Hrun; apply after_inv in Hrun;
      destruct Hrun as [a Hrun].
    + exact (invariant_Factory _ _ _ _ _ _ IH Hrun).
    + exact (invariant_QueryInterface _ _ _ _ _ _ _ _ IH Hrun).
    + exact (invariant_AddRef _ _ _ _ IH Hrun).
    + exact (invariant_Release _ _ _ _ IH Hrun).
    + exact (invariant_Initialize _ _ _ _ _ IH Hrun).
    + exact (invariant_frames _ _ _ _ (frames_CreateDevice _ _ _ _) IH Hrun).
    + exact (invariant_frames _ _ _ _
               (frames_passive inDriver (Passive_DestroyDevice id)) IH Hrun).
    + exact (invariant_frames _ _ _ _
               (frames_passive inDriver (Passive_AddDeviceClient id inClientInfo))
               IH Hrun).
    + exact (invariant_frames _ _ _ _
               (frames_passive inDriver (Passive_RemoveDeviceClient id inClientInfo))
               IH Hrun).
    + exact (invariant_frames _ _ _ _
               (frames_passive inDriver
                  (Passive_PerformDeviceConfigurationChange id inChangeAction
                     inChangeInfo)) IH Hrun).
    + exact (invariant_frames _ _ _ _
               (frames_passive inDriver
                  (Passive_AbortDeviceConfigurationChange id inChangeAction
                     inChangeInfo)) IH Hrun).
    + exact (invariant_frames _ _ _ _ (frames_HasProperty _ _ _ _) IH Hrun).
    + exact (invariant_frames _ _ _ _ (frames_IsPropertySettable _ _ _ _ _) IH Hrun).
    + exact (invariant_frames _ _ _ _
               (frames_GetPropertyDataSize _ _ _ _ _ _ _) IH Hrun).
    + exact (invariant_frames _ _ _ _
               (frames_GetPropertyData _ _ _ _ _ _ _ _ _) IH Hrun).
    + exact (invariant_frames _ _ _ _
               (frames_SetPropertyData _ _ _ _ _ _ _ _) IH Hrun).
    + exact (invariant_frames _ _ _ _
               (frames_passive inDriver (Passive_StartIO id inClientID)) IH Hrun).
    + exact (invariant_frames _ _ _ _
               (frames_passive inDriver (Passive_StopIO id inClientID)) IH Hrun).
    + exact (invariant_frames _ _ _ _
               (frames_GetZeroTimeStamp _ _ _ _ _ _) IH Hrun).
    + exact (invariant_frames _ _ _ _
               (frames_WillDoIOOperation _ _ _ _ _ _) IH Hrun).
    + exact (invariant_frames _ _ _ _
               (frames_passive inDriver
                  (Passive_BeginIOOperation id inClientID inOperationID frames0
                     inIOCycleInfo)) IH Hrun).
    + exact (invariant_frames _ _ _ _
               (frames_DoIOOperation _ _ _ _ _ _ _ _ _) IH Hrun).
    + exact (invariant_frames _ _ _ _
               (frames_passive inDriver
                  (Passive_EndIOOperation id inClientID inOperationID frames0
                     inIOCycleInfo)) IH Hrun).
  - apply (invariant_framed s _ [] IH); try reflexivity.
    cbn. now rewrite app_nil_r.
Qed.

Lemma initialized_state_reachable : reachable block_address initialized_state.
Proof.
  apply (reachable_call block_address
           (mkState DriverBlock (Some fresh_driver) (fun _ => Undef)
                    [Factory_called; malloc_AudioHALDriver true;
                     CFPlugInAddInstanceForFactory kAudioHALDriverFactoryUUID;
                     Driver_instance_created])
           (Call_Initialize DriverBlock 4096)).
  - apply (reachable_call block_address initial_state
             (Call_AudioHALDriverFactory true NULL kAudioServerPlugInTypeUUID)).
    + apply reachable_initial.
    + reflexivity.
  - reflexivity.
Qed.

End Reachable.

(** ** C9: the IO cycle writes silence over sixteen channels *)

(** C9, as stated, fails: the driver the factory builds has 16 output
    channels, not 2.  After [StartIO] on the freshly initialized driver,
    [DoIOOperation] with 512 frames zeroes 512 * 16 * 4 = 32768 bytes of the
    main buffer at 65536: the byte at offset 4096, just past the
    512 * 2 * 4 bytes the scenario names, is overwritten with zero. *)
Lemma factory_driver_zeroes_sixteen_channels :
  load_and_initialize 4096 initial_state
  = Some (kAudioHardwareNoError, initialized_state)
  /\ option_map outputChannels (heap initialized_state) = Some 16
  /\ exists s1 s',
      StartIO DriverBlock 1 7 initialized_state
      = Some (kAudioHardwareNoError, s1)
      /\ DoIOOperation DriverBlock 1 2 7 0 512 0 65536 131072 s1
         = Some (kAudioHardwareNoError, s')
      /\ ~ (65536 <= 65536 + 4096 < 65536 + 512 * 2 * 4)
      /\ memory s1 (65536 + 4096) = Undef
      /\ memory s' (65536 + 4096) = Byte 0
      /\ memory s' (65536 + 32767) = Byte 0
      /\ memory s' (65536 + 32768) = Undef.
Proof.
  split; [reflexivity|]. split; [reflexivity|].
  do 2 eexists. split; [reflexivity|]. split; [reflexivity|].
  split; [lia|]. repeat split.
Qed.

(** C9, amended.  In every state the process can reach, the output channel
    count [c] of the live driver is 16.  There, for every [UInt32] frame count
    [f] and every non-null main buffer, [DoIOOperation] succeeds, sets exactly
    the first [f * c * sizeof(float)] bytes of the main buffer to zero,
    changes no byte of memory outside that extent, in particular none of a
    secondary buffer that does not overlap it, and leaves the driver instance
    as it was.  (With 512 frames after [StartIO] on a freshly initialized
    driver that extent is 512 * 16 * 4 = 32768 bytes.) *)
Theorem DoIOOperation_zero_fills_main_buffer :
  forall block_address inDeviceObjectID inStreamObjectID inClientID
         inOperationID inIOBufferFrameSize inIOCycleInfo
         ioMainBuffer ioSecondaryBuffer s d,
    reachable block_address s ->
    heap s = Some d ->
    ioMainBuffer <> NULL ->
    is_UInt32 inIOBufferFrameSize ->
    let c := outputChannels d in
    let n := inIOBufferFrameSize * c * sizeof_float in
    c = 16
    /\ exists s',
        DoIOOperation DriverBlock inDeviceObjectID inStreamObjectID inClientID
                      inOperationID inIOBufferFrameSize inIOCycleInfo
                      ioMainBuffer ioSecondaryBuffer s
        = Some (kAudioHardwareNoError, s')
        /\ (forall a, ioMainBuffer <= a < ioMainBuffer + n ->
                      memory s' a = Byte 0)
        /\ (forall a, ~ (ioMainBuffer <= a < ioMainBuffer + n) ->
                      memory s' a = memory s a)
        /\ (forall len a,
               ioSecondaryBuffer + len <= ioMainBuffer
               \/ ioMainBuffer + n <= ioSecondaryBuffer ->
               ioSecondaryBuffer <= a < ioSecondaryBuffer + len ->
               memory s' a = memory s a)
        /\ same_driver_state s s'.
Proof.
  intros block_address inDeviceObjectID inStreamObjectID inClientID
         inOperationID f inIOCycleInfo main secondary s d Hs Hd Hmain Hf c n.
  destruct (reachable_invariant block_address s Hs) as (_ & _ & _ & H).
  destruct (H d Hd) as (_ & Hout & _).
  fold c in Hout. split; [exact Hout|].
  unfold is_UInt32, UInt32_modulus in Hf. change (2 ^ 32) with 4294967296 in Hf.
  assert (Hsize : io_buffer_size f (outputChannels d) = n).
  { subst n. fold c. rewrite Hout. rewrite io_buffer_size_exact;
      unfold UInt32_modulus, size_t_modulus, sizeof_float;
      change (2 ^ 32) with 4294967296;
      change (2 ^ 64) with 18446744073709551616; lia. }
  eexists. split; [apply (DoIOOperation_run _ _ _ _ _ _ _ _ s d Hd Hmain)|].
  cbn [memory]. rewrite Hsize.
  split; [|split; [|split]].
  - intros a Ha. now rewrite memset_inside.
  - intros a Ha. now rewrite memset_outside.
  - intros len a Hdisj Ha. rewrite memset_outside; [reflexivity|lia].
  - split; [reflexivity|split; reflexivity].
Qed.

(** [StartIO] on the freshly initialized driver, then [DoIOOperation] with 512
    frames: the 32768 bytes of the main buffer at 65536 are zeroed, and the
    secondary buffer at 131072 keeps its contents. *)
Lemma DoIOOperation_zero_fills_main_buffer_witness :
  outputChannels initialized_driver = 16
  /\ exists s',
      DoIOOperation DriverBlock 1 2 7 0 512 0 65536 131072
        (mkState DriverBlock (Some initialized_driver) (fun _ => Undef)
           (events initialized_state
            ++ [fprintf_stderr ("AudioHALDriver: StartIO called" ++ nl)%string]))
      = Some (kAudioHardwareNoError, s')
      /\ (forall a, 65536 <= a < 65536 + 512 * 16 * 4 -> memory s' a = Byte 0)
      /\ (forall a, ~ (65536 <= a < 65536 + 512 * 16 * 4) ->
                    memory s' a = Undef)
      /\ (forall len a,
             131072 + len <= 65536 \/ 65536 + 512 * 16 * 4 <= 131072 ->
             131072 <= a < 131072 + len ->
             memory s' a = Undef)
      /\ same_driver_state
           (mkState DriverBlock (Some initialized_driver) (fun _ => Undef)
              (events initialized_state
               ++ [fprintf_stderr ("AudioHALDriver: StartIO called" ++ nl)%string]))
           s'.
Proof.
  apply (DoIOOperation_zero_fills_main_buffer 24576 1 2 7 0 512 0 65536 131072
           (mkState DriverBlock (Some initialized_driver) (fun _ => Undef)
              (events initialized_state
               ++ [fprintf_stderr ("AudioHALDriver: StartIO called" ++ nl)%string]))
           initialized_driver).
  - apply (reachable_call 24576 initialized_state (Call_StartIO DriverBlock 1 7)).
    + apply initialized_state_reachable.
    + reflexivity.
  - reflexivity.
  - discriminate.
  - split; [discriminate | reflexivity].
Defined.

(** ** Reading back what was stored *)

Lemma decode_encode_8 v :
  0 <= v < size_t_modulus ->
  v mod 256 + 256 * ((v / 256) mod 256
    + 256 * ((v / 256 / 256) mod 256
    + 256 * ((v / 256 / 256 / 256) mod 256
    + 256 * ((v / 256 / 256 / 256 / 256) mod 256
    + 256 * ((v / 256 / 256 / 256 / 256 / 256) mod 256
    + 256 * ((v / 256 / 256 / 256 / 256 / 256 / 256) mod 256
    + 256 * ((v / 256 / 256 / 256 / 256 / 256 / 256 / 256) mod 256
             + 256 * 0))))))) = v.
Proof.
  unfold size_t_modulus. intros H.
  change (2 ^ 64) with 18446744073709551616 in H.
  Z.div_mod_to_equations. lia.
Qed.

Lemma to_size_t_range x : 0 <= to_size_t x < size_t_modulus.
Proof. unfold to_size_t. apply Z.mod_pos_bound. reflexivity. Qed.

Lemma decode_int_8_store_bytes m a v :
  0 <= v < size_t_modulus ->
  decode_int 8 (store_bytes m a (encode_int 8 v)) a = Some v.
Proof.
  intros Hr.
  cbn [decode_int encode_int]. unfold load_byte.
  rewrite !store_bytes_inside by (cbn [List.length]; lia).
  replace (a - a) with 0 by lia.
  replace (a + 1 - a) with 1 by lia.
  replace (a + 1 + 1 - a) with 2 by lia.
  replace (a + 1 + 1 + 1 - a) with 3 by lia.
  replace (a + 1 + 1 + 1 + 1 - a) with 4 by lia.
  replace (a + 1 + 1 + 1 + 1 + 1 - a) with 5 by lia.
  replace (a + 1 + 1 + 1 + 1 + 1 + 1 - a) with 6 by lia.
  replace (a + 1 + 1 + 1 + 1 + 1 + 1 + 1 - a) with 7 by lia.
  change (Z.to_nat 0) with 0%nat. change (Z.to_nat 1) with 1%nat.
  change (Z.to_nat 2) with 2%nat. change (Z.to_nat 3) with 3%nat.
  change (Z.to_nat 4) with 4%nat. change (Z.to_nat 5) with 5%nat.
  change (Z.to_nat 6) with 6%nat. change (Z.to_nat 7) with 7%nat.
  cbn [nth]. f_equal. now apply decode_encode_8.
Qed.

Lemma load_store_pointer m a p :
  load_pointer (store_pointer m a p) a = Some (to_size_t p).
Proof.
  unfold load_pointer, store_pointer.
  apply decode_int_8_store_bytes, to_size_t_range.
Qed.

Lemma load_store_UInt64 m a v :
  load_UInt64 (store_UInt64 m a v) a = Some (to_size_t v).
Proof.
  unfold load_UInt64, store_UInt64.
  apply decode_int_8_store_bytes, to_size_t_range.
Qed.

Lemma decode_int_ext n : forall m m' a,
  (forall x, a <= x < a + Z.of_nat n -> m' x = m x) ->
  decode_int n m' a = decode_int n m a.
Proof.
  induction n as [|n IH]; intros m m' a H; [reflexivity|].
  cbn [decode_int]. unfold load_byte. rewrite (H a) by lia.
  rewrite (IH m m' (a + 1)) by (intros x Hx; apply H; lia).
  reflexivity.
Qed.

Lemma store_val_outside m a v x :
  ~ (a <= x < a + 8) -> store_val m a v x = m x.
Proof. intros H. unfold store_val. apply store_bytes_outside. cbn. lia. Qed.

Lemma store_UInt64_outside m a v x :
  ~ (a <= x < a + 8) -> store_UInt64 m a v x = m x.
Proof.
  intros H. unfold store_UInt64. apply store_bytes_outside.
  rewrite encode_int_length. cbn. lia.
Qed.

Lemma holds_store_val m a v : holds_val (store_val m a v) a v.
Proof.
  intros i Hi. unfold store_val.
  rewrite store_bytes_inside by (cbn; lia).
  replace (a + Z.of_nat i - a) with (Z.of_nat i) by lia.
  rewrite Nat2Z.id.
  do 8 (destruct i as [|i]; [reflexivity|]). lia.
Qed.

Lemma holds_val_ext m m' a v :
  (forall x, a <= x < a + 8 -> m' x = m x) ->
  holds_val m a v -> holds_val m' a v.
Proof. intros H Hv i Hi. rewrite H by lia. now apply Hv. Qed.

(** ** The factory *)

(** X1.  Asked for any type other than the audio server plug-in type, the
    factory returns the null pointer; it allocates nothing, does not touch an
    existing instance or its reference count, and only logs its call. *)
Theorem Factory_rejects_other_types :
  forall malloc_ok allocator typeID s,
    typeID <> kAudioServerPlugInTypeUUID ->
    exists s',
      AudioHALDriverFactory malloc_ok allocator typeID s = Some (NullDriver, s')
      /\ gDriver s' = gDriver s
      /\ heap s' = heap s
      /\ memory s' = memory s
      /\ events s' = (events s ++ [Factory_called])%list.
Proof.
  intros ok allocator typeID s H. eexists.
  split; [apply (Factory_other_type ok allocator typeID s H)|].
  repeat split.
Qed.

Lemma Factory_rejects_other_types_witness :
  exists s',
    AudioHALDriverFactory true NULL kAudioServerPlugInDriverInterfaceUUID
                          initialized_state
    = Some (NullDriver, s')
    /\ gDriver s' = gDriver initialized_state
    /\ heap s' = heap initialized_state
    /\ memory s' = memory initialized_state
    /\ events s' = (events initialized_state ++ [Factory_called])%list.
Proof.
  apply (Factory_rejects_other_types true NULL
           kAudioServerPlugInDriverInterfaceUUID initialized_state).
  discriminate.
Defined.

(** X2.  When no instance exists and [malloc] fails, the factory returns the
    null pointer, leaves [gDriver] null, and registers no instance with the
    plug-in runtime; the next call allocates as if the failed one had not
    happened. *)
Theorem Factory_survives_allocation_failure :
  forall allocator allocator' s,
    gDriver s = NullDriver ->
    exists s1 s2,
      AudioHALDriverFactory false allocator kAudioServerPlugInTypeUUID s
      = Some (NullDriver, s1)
      /\ gDriver s1 = NullDriver
      /\ heap s1 = heap s
      /\ count is_add_instance (events s1) = count is_add_instance (events s)
      /\ count is_malloc_ok (events s1) = count is_malloc_ok (events s)
      /\ AudioHALDriverFactory true allocator' kAudioServerPlugInTypeUUID s1
         = Some (DriverBlock, s2)
      /\ gDriver s2 = DriverBlock
      /\ heap s2 = Some fresh_driver.
Proof.
  intros allocator allocator' s Hg.
  do 2 eexists.
  split; [apply (Factory_out_of_memory allocator s Hg)|].
  cbn [gDriver heap events].
  rewrite !count_app. cbn [count filter Factory_called is_add_instance
                             is_malloc_ok List.length].
  rewrite !Nat.add_0_r.
  do 4 (split; [reflexivity|]).
  split; [apply Factory_creates; reflexivity|].
  split; reflexivity.
Qed.

Lemma Factory_survives_allocation_failure_witness :
  exists s1 s2,
    AudioHALDriverFactory false NULL kAudioServerPlugInTypeUUID initial_state
    = Some (NullDriver, s1)
    /\ gDriver s1 = NullDriver
    /\ heap s1 = heap initial_state
    /\ count is_add_instance (events s1)
       = count is_add_instance (events initial_state)
    /\ count is_malloc_ok (events s1)
       = count is_malloc_ok (events initial_state)
    /\ AudioHALDriverFactory true NULL kAudioServerPlugInTypeUUID s1
       = Some (DriverBlock, s2)
    /\ gDriver s2 = DriverBlock
    /\ heap s2 = Some fresh_driver.
Proof.
  apply (Factory_survives_allocation_failure NULL NULL initial_state).
  reflexivity.
Defined.

Lemma repeat_Factory_shares ok allocator (n : nat) : forall s d c,
  gDriver s = DriverBlock ->
  heap s = Some d ->
  refCount d = to_UInt32 c ->
  exists s',
    repeatM n (AudioHALDriverFactory ok allocator kAudioServerPlugInTypeUUID) s
    = Some (List.repeat DriverBlock n, s')
    /\ gDriver s' = DriverBlock
    /\ heap s' = Some (set_refCount d (to_UInt32 (c + Z.of_nat n)))
    /\ memory s' = memory s
    /\ count is_malloc_ok (events s') = count is_malloc_ok (events s)
    /\ count is_free (events s') = count is_free (events s).
Proof.
  induction n as [|n IH]; intros s d c Hg Hd Hc.
  - exists s. split; [reflexivity|].
    rewrite Z.add_0_r, <- Hc, set_refCount_same. auto.
  - pose proof (Factory_shares ok allocator s d Hg Hd) as Hstep.
    set (d1 := set_refCount d (to_UInt32 (refCount d + 1))) in *.
    set (s1 := mkState DriverBlock (Some d1) (memory s)
                       (events s ++ [Factory_called])) in *.
    destruct (IH s1 d1 (c + 1) eq_refl eq_refl)
      as (s' & Hrun & Hg' & Hh' & Hm' & Hc1 & Hc2).
    { subst d1. cbn [refCount set_refCount]. rewrite Hc. apply to_UInt32_succ. }
    exists s'. split; [exact (repeatM_succ n _ s _ s1 _ s' Hstep Hrun)|].
    rewrite Hh', Hm', Hc1, Hc2. subst d1 s1. cbn [memory events].
    rewrite set_refCount_twice, !count_app.
    replace (c + 1 + Z.of_nat n) with (c + Z.of_nat (S n)) by lia.
    cbn [count filter Factory_called is_malloc_ok is_free List.length].
    rewrite !Nat.add_0_r. auto.
Qed.

(** X3.  The factory hands out one shared instance.  From a state without a
    driver, [k + 1] calls for the plug-in type allocate once, all return the
    same block, and leave its reference count at [k + 1]; the [k + 1] calls of
    [Release] that give these references back return [k, ..., 1, 0] and free
    the block once, leaving [gDriver] null again.  ([k + 1] is within the
    range of the [UInt32] counter.) *)
Theorem Factory_hands_out_one_shared_instance :
  forall (k : nat) malloc_ok allocator s,
    gDriver s = NullDriver ->
    Z.of_nat k < UInt32_modulus - 1 ->
    exists s1 s2,
      (p <- AudioHALDriverFactory true allocator kAudioServerPlugInTypeUUID ;;
       ps <- repeatM k (AudioHALDriverFactory malloc_ok allocator
                          kAudioServerPlugInTypeUUID) ;;
       ret (p :: ps)) s
      = Some (List.repeat DriverBlock (S k), s1)
      /\ heap s1 = Some (set_refCount fresh_driver (Z.of_nat k + 1))
      /\ count is_malloc_ok (events s1) = S (count is_malloc_ok (events s))
      /\ repeatM (S k) (Release DriverBlock) s1
         = Some (map Z.of_nat (rev (seq 0 (S k))), s2)
      /\ heap s2 = None
      /\ gDriver s2 = NullDriver
      /\ count is_free (events s2) = S (count is_free (events s)).
Proof.
  intros k ok allocator s Hg Hk.
  pose proof (Factory_creates allocator s Hg) as Hfirst.
  set (s0 := mkState DriverBlock (Some fresh_driver) (memory s)
                     (events s
                      ++ [Factory_called; malloc_AudioHALDriver true;
                          CFPlugInAddInstanceForFactory kAudioHALDriverFactoryUUID;
                          Driver_instance_created])) in *.
  destruct (repeat_Factory_shares ok allocator k s0 fresh_driver 1
              eq_refl eq_refl eq_refl)
    as (s1 & Hrest & Hg1 & Hh1 & Hm1 & Hc1 & Hc2).
  assert (Hcount : to_UInt32 (1 + Z.of_nat k) = Z.of_nat k + 1).
  { rewrite Z.add_comm. apply to_UInt32_small. lia. }
  rewrite Hcount in Hh1.
  destruct (repeat_Release k s1 _ Hh1) as (s2 & Hrel & Hh2 & Hg2 & Hm2 & He2).
  { lia. }
  { cbn [refCount set_refCount]. symmetry. apply to_UInt32_small. lia. }
  exists s1, s2.
  split; [unfold bind; rewrite Hfirst, Hrest; reflexivity|].
  split; [exact Hh1|].
  split.
  { rewrite Hc1. subst s0. cbn [events]. rewrite count_app.
    cbn [count filter Factory_called Driver_instance_created is_malloc_ok
           List.length]. lia. }
  split; [exact Hrel|]. split; [exact Hh2|]. split; [exact Hg2|].
  rewrite He2, count_app, Hc2. subst s0. cbn [events]. rewrite count_app.
  cbn [count filter Factory_called Driver_instance_created is_free List.length].
  lia.
Qed.

Lemma Factory_hands_out_one_shared_instance_witness :
  exists s1 s2,
    (p <- AudioHALDriverFactory true NULL kAudioServerPlugInTypeUUID ;;
     ps <- repeatM 2 (AudioHALDriverFactory true NULL
                        kAudioServerPlugInTypeUUID) ;;
     ret (p :: ps)) initial_state
    = Some ([DriverBlock; DriverBlock; DriverBlock], s1)
    /\ heap s1 = Some (set_refCount fresh_driver 3)
    /\ count is_malloc_ok (events s1) = 1%nat
    /\ repeatM 3 (Release DriverBlock) s1 = Some ([2; 1; 0], s2)
    /\ heap s2 = None
    /\ gDriver s2 = NullDriver
    /\ count is_free (events s2) = 1%nat.
Proof.
  apply (Factory_hands_out_one_shared_instance 2 true NULL initial_state).
  - reflexivity.
  - reflexivity.
Defined.

(** ** Reference counting and interface negotiation *)

(** X4.  On a live driver whose reference count is not zero, [AddRef]
    followed by [Release] gives back the original count and restores the
    state exactly: nothing is freed and no field has changed. *)
Theorem AddRef_then_Release_restores :
  forall s d,
    heap s = Some d ->
    is_UInt32 (refCount d) ->
    refCount d <> 0 ->
    exists n s',
      (n <- AddRef DriverBlock ;; r <- Release DriverBlock ;; ret (n, r)) s
      = Some ((n, refCount d), s')
      /\ n = to_UInt32 (refCount d + 1)
      /\ gDriver s' = gDriver s
      /\ heap s' = Some d
      /\ memory s' = memory s
      /\ events s' = events s.
Proof.
  intros s d Hd Hr Hnz.
  pose proof (AddRef_run s d Hd) as Hadd.
  set (d1 := set_refCount d (to_UInt32 (refCount d + 1))) in *.
  set (s1 := mkState (gDriver s) (Some d1) (memory s) (events s)) in *.
  assert (Hback : to_UInt32 (refCount d1 - 1) = refCount d).
  { subst d1. cbn [refCount set_refCount]. rewrite to_UInt32_pred.
    replace (refCount d + 1 - 1) with (refCount d) by lia.
    now apply to_UInt32_small. }
  assert (Hnz1 : to_UInt32 (refCount d1 - 1) <> 0) by congruence.
  pose proof (Release_run_alive s1 d1 eq_refl Hnz1) as Hrel.
  rewrite Hback in Hrel.
  do 2 eexists. split.
  - unfold bind. rewrite Hadd, Hrel. reflexivity.
  - cbn [gDriver heap memory events]. subst d1.
    rewrite set_refCount_twice, set_refCount_same. auto.
Qed.

Lemma AddRef_then_Release_restores_witness :
  exists n s',
    (n <- AddRef DriverBlock ;; r <- Release DriverBlock ;; ret (n, r))
      initialized_state
    = Some ((n, 1), s')
    /\ n = 2
    /\ gDriver s' = gDriver initialized_state
    /\ heap s' = Some initialized_driver
    /\ memory s' = memory initialized_state
    /\ events s' = events initialized_state.
Proof.
  apply (AddRef_then_Release_restores initialized_state initialized_driver).
  - reflexivity.
  - split; [discriminate | reflexivity].
  - discriminate.
Defined.

(** X5.  Asked for [IUnknown] or for the driver interface on a live driver,
    [QueryInterface] returns [S_OK], takes one more reference, and stores the
    driver's address in [*outInterface]; it writes nowhere else, changes no
    other field, and has released the temporary UUID it created. *)
Theorem QueryInterface_accepts_known_interfaces :
  forall block_address inUUID outInterface retained s d,
    inUUID = IUnknownUUID \/ inUUID = kAudioServerPlugInDriverInterfaceUUID ->
    heap s = Some d ->
    0 <= block_address < size_t_modulus ->
    exists s',
      QueryInterface block_address DriverBlock inUUID outInterface retained s
      = Some ((S_OK, retained), s')
      /\ heap s' = Some (set_refCount d (to_UInt32 (refCount d + 1)))
      /\ load_pointer (memory s') outInterface = Some block_address
      /\ (forall a, ~ (outInterface <= a < outInterface + 8) ->
                    memory s' a = memory s a)
      /\ gDriver s' = gDriver s
      /\ events s' = events s.
Proof.
  intros block_address inUUID outInterface retained s d Hu Hd Hb.
  eexists.
  split; [apply (QueryInterface_accepts _ _ _ _ s d Hu Hd)|].
  cbn [heap memory gDriver events].
  split; [reflexivity|].
  split; [rewrite load_store_pointer; f_equal; now apply to_size_t_small|].
  split; [intros a Ha; now apply store_pointer_outside|].
  split; reflexivity.
Qed.

Lemma QueryInterface_accepts_known_interfaces_witness :
  exists s',
    QueryInterface 24576 DriverBlock kAudioServerPlugInDriverInterfaceUUID
                   3000 [] initialized_state
    = Some ((S_OK, []), s')
    /\ heap s' = Some (set_refCount initialized_driver 2)
    /\ load_pointer (memory s') 3000 = Some 24576
    /\ (forall a, ~ (3000 <= a < 3000 + 8) ->
                  memory s' a = memory initialized_state a)
    /\ gDriver s' = gDriver initialized_state
    /\ events s' = events initialized_state.
Proof.
  apply (QueryInterface_accepts_known_interfaces 24576
           kAudioServerPlugInDriverInterfaceUUID 3000 [] initialized_state
           initialized_driver).
  - right. reflexivity.
  - reflexivity.
  - split; [discriminate | reflexivity].
Defined.

(** X6.  Asked for any other interface, [QueryInterface] returns
    [E_NOINTERFACE], which differs from [S_OK], and has no effect: no
    reference is taken, [*outInterface] is not written, and the temporary UUID
    has been released.  It does not even look at the driver pointer, so this
    holds for a null or freed driver too. *)
Theorem QueryInterface_rejects_other_interfaces :
  forall block_address inDriver inUUID outInterface retained s,
    inUUID <> IUnknownUUID ->
    inUUID <> kAudioServerPlugInDriverInterfaceUUID ->
    QueryInterface block_address inDriver inUUID outInterface retained s
    = Some ((E_NOINTERFACE, retained), s)
    /\ E_NOINTERFACE <> S_OK.
Proof.
  intros block_address inDriver inUUID outInterface retained s H1 H2.
  split; [now apply QueryInterface_rejects | discriminate].
Qed.

Lemma QueryInterface_rejects_other_interfaces_witness :
  QueryInterface 24576 NullDriver kAudioServerPlugInTypeUUID 3000 []
                 initial_state
  = Some ((E_NOINTERFACE, []), initial_state)
  /\ E_NOINTERFACE <> S_OK.
Proof.
  apply (QueryInterface_rejects_other_interfaces 24576 NullDriver
           kAudioServerPlugInTypeUUID 3000 [] initial_state);
    discriminate.
Defined.

(** X7.  A reference obtained through [QueryInterface] and given back with
    [Release] leaves the driver instance exactly as it was (its count not
    being zero): [Release] returns the original count and nothing is freed. *)
Theorem QueryInterface_then_Release_restores :
  forall block_address inUUID outInterface retained s d,
    inUUID = IUnknownUUID \/ inUUID = kAudioServerPlugInDriverInterfaceUUID ->
    heap s = Some d ->
    is_UInt32 (refCount d) ->
    refCount d <> 0 ->
    exists s',
      (hr <- QueryInterface block_address DriverBlock inUUID outInterface
                            retained ;;
       r <- Release DriverBlock ;; ret (fst hr, r)) s
      = Some ((S_OK, refCount d), s')
      /\ heap s' = Some d
      /\ gDriver s' = gDriver s
      /\ events s' = events s.
Proof.
  intros block_address inUUID outInterface retained s d Hu Hd Hr Hnz.
  pose proof (QueryInterface_accepts block_address inUUID outInterface retained
                s d Hu Hd) as Hqi.
  set (d1 := set_refCount d (to_UInt32 (refCount d + 1))) in *.
  set (s1 := mkState (gDriver s) (Some d1)
                     (store_pointer (memory s) outInterface block_address)
                     (events s)) in *.
  assert (Hback : to_UInt32 (refCount d1 - 1) = refCount d).
  { subst d1. cbn [refCount set_refCount]. rewrite to_UInt32_pred.
    replace (refCount d + 1 - 1) with (refCount d) by lia.
    now apply to_UInt32_small. }
  assert (Hnz1 : to_UInt32 (refCount d1 - 1) <> 0) by congruence.
  pose proof (Release_run_alive s1 d1 eq_refl Hnz1) as Hrel.
  rewrite Hback in Hrel.
  eexists. split.
  - unfold bind. rewrite Hqi, Hrel. reflexivity.
  - cbn [gDriver heap memory events]. subst d1.
    rewrite set_refCount_twice, set_refCount_same. auto.
Qed.

Lemma QueryInterface_then_Release_restores_witness :
  exists s',
    (hr <- QueryInterface 24576 DriverBlock IUnknownUUID 3000 [] ;;
     r <- Release DriverBlock ;; ret (fst hr, r)) initialized_state
    = Some ((S_OK, 1), s')
    /\ heap s' = Some initialized_driver
    /\ gDriver s' = gDriver initialized_state
    /\ events s' = events initialized_state.
Proof.
  apply (QueryInterface_then_Release_restores 24576 IUnknownUUID 3000 []
           initialized_state initialized_driver).
  - left. reflexivity.
  - reflexivity.
  - split; [discriminate | reflexivity].
  - discriminate.
Defined.

(** ** What holds in every reachable state *)

(** X8.  In every state the process can reach, [gDriver] is null exactly
    when no driver block is allocated (it never dangles and never loses a live
    block); successful allocations outnumber frees by exactly the number of
    live blocks (0 or 1), and so do plug-in registrations over
    unregistrations: nothing leaks and nothing is freed twice. *)
Theorem reachable_pointer_and_allocation_balance :
  forall block_address s,
    reachable block_address s ->
    (gDriver s = NullDriver <-> heap s = None)
    /\ count is_malloc_ok (events s) = (count is_free (events s) + live s)%nat
    /\ count is_add_instance (events s)
       = (count is_remove_instance (events s) + live s)%nat
    /\ (live s <= 1)%nat.
Proof.
  intros block_address s Hs.
  destruct (reachable_invariant block_address s Hs) as (H1 & H2 & H3 & _).
  repeat (split; [assumption|]).
  unfold live. destruct (heap s); lia.
Qed.

Lemma reachable_pointer_and_allocation_balance_witness :
  (gDriver initialized_state = NullDriver <-> heap initialized_state = None)
  /\ count is_malloc_ok (events initialized_state)
     = (count is_free (events initialized_state) + live initialized_state)%nat
  /\ count is_add_instance (events initialized_state)
     = (count is_remove_instance (events initialized_state)
        + live initialized_state)%nat
  /\ (live initialized_state <= 1)%nat.
Proof.
  apply (reachable_pointer_and_allocation_balance 24576 initialized_state).
  apply initialized_state_reachable.
Defined.

(** X9.  In every reachable state with a live driver, both channel counts are
    16, the factory identity is the one the factory wrote, the reference
    count is within [UInt32], and the device object identifier is 0 or 1: no
    entry point changes the channel counts or the factory identity. *)
Theorem reachable_driver_fields :
  forall block_address s d,
    reachable block_address s ->
    heap s = Some d ->
    inputChannels d = 16
    /\ outputChannels d = 16
    /\ factoryID d = kAudioHALDriverFactoryUUID
    /\ is_UInt32 (refCount d)
    /\ (deviceObjectID d = 0 \/ deviceObjectID d = 1).
Proof.
  intros block_address s d Hs Hd.
  destruct (reachable_invariant block_address s Hs) as (_ & _ & _ & H).
  destruct (H d Hd) as (H1 & H2 & H3 & H4 & H5).
  repeat (split; [assumption|]). tauto.
Qed.

Lemma reachable_driver_fields_witness :
  inputChannels initialized_driver = 16
  /\ outputChannels initialized_driver = 16
  /\ factoryID initialized_driver = kAudioHALDriverFactoryUUID
  /\ is_UInt32 (refCount initialized_driver)
  /\ (deviceObjectID initialized_driver = 0
      \/ deviceObjectID initialized_driver = 1).
Proof.
  apply (reachable_driver_fields 24576 initialized_state initialized_driver).
  - apply initialized_state_reachable.
  - reflexivity.
Defined.

(** X10.  In every reachable state, the device object identifier of the live
    driver is nonzero only if [Initialize] has completed on that very
    instance: its closing log line occurs in the trace after the last
    successful allocation. *)
Theorem reachable_device_identifier_needs_Initialize :
  forall block_address s d,
    reachable block_address s ->
    heap s = Some d ->
    deviceObjectID d <> 0 ->
    deviceObjectID d = 1
    /\ In Initialize_done (since_last_malloc (events s)).
Proof.
  intros block_address s d Hs Hd Hnz.
  destruct (reachable_invariant block_address s Hs) as (_ & _ & _ & H).
  destruct (H d Hd) as (_ & _ & _ & _ & [H0|H1]); [contradiction | exact H1].
Qed.

Lemma reachable_device_identifier_needs_Initialize_witness :
  deviceObjectID initialized_driver = 1
  /\ In Initialize_done (since_last_malloc (events initialized_state)).
Proof.
  apply (reachable_device_identifier_needs_Initialize 24576 initialized_state
           initialized_driver).
  - apply initialized_state_reachable.
  - reflexivity.
  - discriminate.
Defined.

(** X11.  In every reachable state with a live driver, the size query and the
    data query for the stream configuration agree under the input and the
    output scope: [GetPropertyDataSize] returns 264 bytes and
    [GetPropertyData], given 264 bytes, reports 264 bytes. *)
Theorem reachable_stream_configuration_sizes_agree :
  forall block_address inObjectID pid scope elem qsz q
         outDataSize outDataSize' outData s d,
    reachable block_address s ->
    heap s = Some d ->
    scope = kAudioObjectPropertyScopeInput
    \/ scope = kAudioObjectPropertyScopeOutput ->
    let inAddress :=
      mkAddress kAudioDevicePropertyStreamConfiguration scope elem in
    exists s1 s2,
      GetPropertyDataSize DriverBlock inObjectID pid inAddress qsz q
                          outDataSize s
      = Some (kAudioHardwareNoError, s1)
      /\ load_UInt32 (memory s1) outDataSize = Some 264
      /\ GetPropertyData DriverBlock inObjectID pid inAddress qsz q
                         264 outDataSize' outData s1
         = Some (kAudioHardwareNoError, s2)
      /\ load_UInt32 (memory s2) outDataSize' = Some 264.
Proof.
  intros block_address inObjectID pid scope elem qsz q
         outDataSize outDataSize' outData s d Hs Hd Hscope inAddress.
  destruct (reachable_invariant block_address s Hs) as (_ & _ & _ & H).
  destruct (H d Hd) as (Hin & Hout & _).
  assert (Hk : channels_of_scope d scope = 16).
  { unfold channels_of_scope. destruct Hscope as [-> | ->]; assumption. }
  do 2 eexists.
  split; [apply GetPropertyDataSize_run|].
  cbn [memory]. split; [now rewrite load_store_UInt32|].
  split.
  - apply (GetPropertyData_stream_configuration inObjectID pid scope elem qsz q
             264 outDataSize' outData _ d); [exact Hd | discriminate].
  - cbn [memory]. rewrite load_store_UInt32, Hk. reflexivity.
Qed.

Lemma reachable_stream_configuration_sizes_agree_witness :
  exists s1 s2,
    GetPropertyDataSize DriverBlock 1 0 stream_configuration_input 0 NULL
                        1000 initialized_state
    = Some (kAudioHardwareNoError, s1)
    /\ load_UInt32 (memory s1) 1000 = Some 264
    /\ GetPropertyData DriverBlock 1 0 stream_configuration_input 0 NULL
                       264 1008 2000 s1
       = Some (kAudioHardwareNoError, s2)
    /\ load_UInt32 (memory s2) 1008 = Some 264.
Proof.
  apply (reachable_stream_configuration_sizes_agree 24576 1 0
           kAudioObjectPropertyScopeInput 0 0 NULL 1000 1008 2000
           initialized_state initialized_driver).
  - apply initialized_state_reachable.
  - reflexivity.
  - left. reflexivity.
Defined.

(** X12.  In every reachable state with a live driver, [DoIOOperation] on a
    non-null main buffer with [f] frames sets exactly the 64 * f bytes from
    the start of the main buffer to zero (16 channels of 4-byte samples) and
    changes no other byte, for every [UInt32] frame count: the size cannot
    wrap. *)
Theorem reachable_DoIOOperation_extent :
  forall block_address inDeviceObjectID inStreamObjectID inClientID
         inOperationID inIOBufferFrameSize inIOCycleInfo
         ioMainBuffer ioSecondaryBuffer s d,
    reachable block_address s ->
    heap s = Some d ->
    ioMainBuffer <> NULL ->
    is_UInt32 inIOBufferFrameSize ->
    exists s',
      DoIOOperation DriverBlock inDeviceObjectID inStreamObjectID inClientID
                    inOperationID inIOBufferFrameSize inIOCycleInfo
                    ioMainBuffer ioSecondaryBuffer s
      = Some (kAudioHardwareNoError, s')
      /\ (forall a,
             ioMainBuffer <= a < ioMainBuffer + 64 * inIOBufferFrameSize ->
             memory s' a = Byte 0)
      /\ (forall a,
             ~ (ioMainBuffer <= a < ioMainBuffer + 64 * inIOBufferFrameSize) ->
             memory s' a = memory s a).
Proof.
  intros block_address inDeviceObjectID inStreamObjectID inClientID
         inOperationID f inIOCycleInfo main secondary s d Hs Hd Hmain Hf.
  destruct (reachable_invariant block_address s Hs) as (_ & _ & _ & H).
  destruct (H d Hd) as (_ & Hout & _).
  unfold is_UInt32, UInt32_modulus in Hf. change (2 ^ 32) with 4294967296 in Hf.
  assert (Hsize : io_buffer_size f (outputChannels d) = 64 * f).
  { rewrite Hout. rewrite io_buffer_size_exact;
      unfold UInt32_modulus, size_t_modulus, sizeof_float;
      change (2 ^ 32) with 4294967296;
      change (2 ^ 64) with 18446744073709551616; lia. }
  eexists. split; [apply (DoIOOperation_run _ _ _ _ _ _ _ _ s d Hd Hmain)|].
  cbn [memory]. rewrite Hsize. split.
  - intros a Ha. now rewrite memset_inside.
  - intros a Ha. now rewrite memset_outside.
Qed.

Lemma reachable_DoIOOperation_extent_witness :
  exists s',
    DoIOOperation DriverBlock 1 2 7 0 512 0 65536 131072 initialized_state
    = Some (kAudioHardwareNoError, s')
    /\ (forall a, 65536 <= a < 65536 + 64 * 512 -> memory s' a = Byte 0)
    /\ (forall a, ~ (65536 <= a < 65536 + 64 * 512) ->
                  memory s' a = memory initialized_state a).
Proof.
  apply (reachable_DoIOOperation_extent 24576 1 2 7 0 512 0 65536 131072
           initialized_state initialized_driver).
  - apply initialized_state_reachable.
  - reflexivity.
  - discriminate.
  - split; [discriminate | reflexivity].
Defined.

(** ** The contents of the property data *)

Lemma load_UInt32_ext m m' a :
  (forall x, a <= x < a + 4 -> m' x = m x) ->
  load_UInt32 m' a = load_UInt32 m a.
Proof. intros H. apply (decode_int_ext 4). exact H. Qed.

Lemma load_pointer_ext m m' a :
  (forall x, a <= x < a + 8 -> m' x = m x) ->
  load_pointer m' a = load_pointer m a.
Proof. intros H. apply (decode_int_ext 8). exact H. Qed.

(** One entry of [mBuffers], as the loop body leaves it. *)
Lemma entry_written m e :
  let m' := store_pointer (store_UInt32 (store_UInt32 m e 1) (e + 4) 0) (e + 8) NULL in
  load_UInt32 m' e = Some 1
  /\ load_UInt32 m' (e + 4) = Some 0
  /\ load_pointer m' (e + 8) = Some NULL.
Proof.
  intros m'. subst m'. split; [|split].
  - rewrite (load_UInt32_ext (store_UInt32 m e 1)).
    + apply load_store_UInt32.
    + intros x Hx. rewrite store_pointer_outside by lia.
      apply store_UInt32_outside. lia.
  - rewrite (load_UInt32_ext (store_UInt32 (store_UInt32 m e 1) (e + 4) 0)).
    + apply load_store_UInt32.
    + intros x Hx. apply store_pointer_outside. lia.
  - apply load_store_pointer.
Qed.

Lemma fill_mBuffers_entries remaining : forall i bufferList m j,
  0 <= i ->
  i <= j < i + Z.of_nat remaining ->
  let e := bufferList + 8 + j * 16 in
  let m' := fill_mBuffers remaining i bufferList m in
  load_UInt32 m' e = Some 1
  /\ load_UInt32 m' (e + 4) = Some 0
  /\ load_pointer m' (e + 8) = Some NULL.
Proof.
  induction remaining as [|n IH]; intros i bufferList m j Hi Hj; [lia|].
  cbn [fill_mBuffers].
  unfold offsetof_mNumberChannels, offsetof_mDataByteSize, offsetof_mData,
    offsetof_mBuffers, sizeof_AudioBuffer.
  rewrite Z.add_0_r.
  destruct (Z.eq_dec j i) as [->|Hne].
  - set (e := bufferList + 8 + i * 16).
    set (m3 := store_pointer (store_UInt32 (store_UInt32 m e 1) (e + 4) 0)
                             (e + 8) NULL).
    assert (Hout : forall x, e <= x < e + 16 ->
                             fill_mBuffers n (i + 1) bufferList m3 x = m3 x).
    { intros x Hx. apply fill_mBuffers_outside; [lia|].
      unfold offsetof_mBuffers, sizeof_AudioBuffer. subst e. lia. }
    cbv zeta.
    rewrite (load_UInt32_ext m3 _ e) by (intros x Hx; apply Hout; lia).
    rewrite (load_UInt32_ext m3 _ (e + 4)) by (intros x Hx; apply Hout; lia).
    rewrite (load_pointer_ext m3 _ (e + 8)) by (intros x Hx; apply Hout; lia).
    apply entry_written.
  - apply IH; lia.
Qed.

(** X13.  The stream configuration [GetPropertyData] writes for a scope with
    [k] channels is a buffer list of [k] entries, each a single-channel buffer
    of zero bytes with a null data pointer: read back from the output buffer,
    [mNumberBuffers] is [k] and every [mBuffers[i]] with [i < k] holds
    [{1, 0, NULL}].  (The output buffer is at least [sizeof(AudioBufferList)]
    long and [*outDataSize] lies outside it.) *)
Theorem stream_configuration_contents :
  forall inObjectID pid scope elem qsz q inDataSize outDataSize outData s d,
    heap s = Some d ->
    is_UInt32 (channels_of_scope d scope) ->
    sizeof_AudioBufferList <= inDataSize ->
    let k := channels_of_scope d scope in
    outDataSize + 4 <= outData
    \/ outData + offsetof_mBuffers + k * sizeof_AudioBuffer <= outDataSize ->
    exists s',
      GetPropertyData DriverBlock inObjectID pid
        (mkAddress kAudioDevicePropertyStreamConfiguration scope elem)
        qsz q inDataSize outDataSize outData s
      = Some (kAudioHardwareNoError, s')
      /\ load_UInt32 (memory s') (outData + offsetof_mNumberBuffers) = Some k
      /\ forall i, 0 <= i < k ->
           let entry := outData + offsetof_mBuffers + i * sizeof_AudioBuffer in
           load_UInt32 (memory s') (entry + offsetof_mNumberChannels) = Some 1
           /\ load_UInt32 (memory s') (entry + offsetof_mDataByteSize) = Some 0
           /\ load_pointer (memory s') (entry + offsetof_mData) = Some NULL.
Proof.
  intros inObjectID pid scope elem qsz q inDataSize outDataSize outData s d
         Hd Hk Hcap k Hdisj.
  fold k in Hk. unfold is_UInt32 in Hk.
  eexists.
  split; [apply (GetPropertyData_stream_configuration _ _ _ _ _ _ _ _ _ _ d Hd Hcap)|].
  cbn [memory]. fold k.
  unfold offsetof_mNumberBuffers, offsetof_mBuffers, sizeof_AudioBuffer,
    offsetof_mNumberChannels, offsetof_mDataByteSize, offsetof_mData in *.
  rewrite Z.add_0_r.
  set (m1 := store_UInt32 (memory s) outData k).
  set (m2 := fill_mBuffers (Z.to_nat k) 0 outData m1).
  assert (Hlast : forall x, outData <= x < outData + 8 + k * 16 ->
            store_UInt32 m2 outDataSize (stream_configuration_size k) x = m2 x).
  { intros x Hx. apply store_UInt32_outside. lia. }
  split.
  - rewrite (load_UInt32_ext m2) by (intros x Hx; apply Hlast; lia).
    rewrite (load_UInt32_ext m1).
    + subst m1. rewrite load_store_UInt32. f_equal. now apply to_UInt32_small.
    + intros x Hx. subst m2. apply fill_mBuffers_outside; [lia|].
      unfold offsetof_mBuffers, sizeof_AudioBuffer. lia.
  - intros i Hi. cbv zeta. rewrite Z.add_0_r.
    set (e := outData + 8 + i * 16).
    rewrite (load_UInt32_ext m2 _ e) by (intros x Hx; apply Hlast; subst e; lia).
    rewrite (load_UInt32_ext m2 _ (e + 4))
      by (intros x Hx; apply Hlast; subst e; lia).
    rewrite (load_pointer_ext m2 _ (e + 8))
      by (intros x Hx; apply Hlast; subst e; lia).
    subst m2 e. apply fill_mBuffers_entries; [lia|].
    rewrite Z2Nat.id by lia. lia.
Qed.

Lemma stream_configuration_contents_witness :
  exists s',
    GetPropertyData DriverBlock 1 0 stream_configuration_input 0 NULL
                    264 1000 2000 initialized_state
    = Some (kAudioHardwareNoError, s')
    /\ load_UInt32 (memory s') (2000 + 0) = Some 16
    /\ forall i, 0 <= i < 16 ->
         load_UInt32 (memory s') (2000 + 8 + i * 16 + 0) = Some 1
         /\ load_UInt32 (memory s') (2000 + 8 + i * 16 + 4) = Some 0
         /\ load_pointer (memory s') (2000 + 8 + i * 16 + 8) = Some NULL.
Proof.
  apply (stream_configuration_contents 1 0 kAudioObjectPropertyScopeInput 0
           0 NULL 264 1000 2000 initialized_state initialized_driver).
  - reflexivity.
  - split; [discriminate | reflexivity].
  - discriminate.
  - left. discriminate.
Defined.

(** The selectors without a case of their own in [GetPropertyData]. *)
Lemma GetPropertyData_default inDriver inObjectID pid inAddress qsz q
      inDataSize outDataSize outData s :
  mSelector inAddress <> kAudioObjectPropertyName ->
  mSelector inAddress <> kAudioObjectPropertyManufacturer ->
  mSelector inAddress <> kAudioDevicePropertyDeviceUID ->
  mSelector inAddress <> kAudioDevicePropertyStreamConfiguration ->
  mSelector inAddress <> kAudioDevicePropertyNominalSampleRate ->
  mSelector inAddress <> kAudioDevicePropertyAvailableNominalSampleRates ->
  GetPropertyData inDriver inObjectID pid inAddress qsz q
                  inDataSize outDataSize outData s
  = Some (kAudioHardwareNoError,
          mkState (gDriver s) (heap s)
                  (store_UInt32 (memory s) outDataSize 0) (events s)).
Proof.
  intros H1 H2 H3 H4 H5 H6. unfold GetPropertyData.
  apply Z.eqb_neq in H1, H2, H3, H4, H5, H6.
  rewrite H1, H2, H3, H4, H5, H6. reflexivity.
Qed.

Lemma HasProperty_false_inv inDriver inObjectID pid inAddress s s' :
  HasProperty inDriver inObjectID pid inAddress s = Some (false, s') ->
  mSelector inAddress <> kAudioObjectPropertyName
  /\ mSelector inAddress <> kAudioObjectPropertyManufacturer
  /\ mSelector inAddress <> kAudioDevicePropertyDeviceUID
  /\ mSelector inAddress <> kAudioDevicePropertyStreams
  /\ mSelector inAddress <> kAudioDevicePropertyStreamConfiguration
  /\ mSelector inAddress <> kAudioDevicePropertyNominalSampleRate
  /\ mSelector inAddress <> kAudioDevicePropertyAvailableNominalSampleRates.
Proof.
  unfold HasProperty. intros H.
  repeat split; intros E; rewrite E in H; cbv in H; discriminate H.
Qed.

Lemma advertised_size_default sel :
  sel <> kAudioObjectPropertyName ->
  sel <> kAudioObjectPropertyManufacturer ->
  sel <> kAudioDevicePropertyDeviceUID ->
  sel <> kAudioDevicePropertyStreamConfiguration ->
  sel <> kAudioDevicePropertyNominalSampleRate ->
  sel <> kAudioDevicePropertyAvailableNominalSampleRates ->
  advertised_size sel = 0.
Proof.
  intros H1 H2 H3 H4 H5 H6. unfold advertised_size.
  apply Z.eqb_neq in H1, H2, H3, H4, H5, H6.
  rewrite H1, H2, H3, H4, H5, H6. reflexivity.
Qed.

(** X14.  A property without data, that is any selector [HasProperty] denies
    and also the (empty) list of streams, has size 0 on both paths:
    [GetPropertyDataSize] stores 0, and [GetPropertyData] stores 0 in
    [*outDataSize] whatever the capacity, touching nothing else; both return
    [kAudioHardwareNoError], and neither needs a live driver. *)
Theorem property_without_data_has_size_zero :
  forall inDriver inObjectID pid inAddress qsz q inDataSize
         outDataSize outData s,
    HasProperty inDriver inObjectID pid inAddress s = Some (false, s)
    \/ mSelector inAddress = kAudioDevicePropertyStreams ->
    (exists s1,
        GetPropertyDataSize inDriver inObjectID pid inAddress qsz q
                            outDataSize s
        = Some (kAudioHardwareNoError, s1)
        /\ load_UInt32 (memory s1) outDataSize = Some 0)
    /\ (exists s2,
           GetPropertyData inDriver inObjectID pid inAddress qsz q
                           inDataSize outDataSize outData s
           = Some (kAudioHardwareNoError, s2)
           /\ load_UInt32 (memory s2) outDataSize = Some 0
           /\ (forall a, ~ (outDataSize <= a < outDataSize + 4) ->
                         memory s2 a = memory s a)
           /\ same_driver_state s s2).
Proof.
  intros inDriver inObjectID pid inAddress qsz q inDataSize
         outDataSize outData s H.
  assert (Hsel : mSelector inAddress <> kAudioObjectPropertyName
                 /\ mSelector inAddress <> kAudioObjectPropertyManufacturer
                 /\ mSelector inAddress <> kAudioDevicePropertyDeviceUID
                 /\ mSelector inAddress <> kAudioDevicePropertyStreamConfiguration
                 /\ mSelector inAddress <> kAudioDevicePropertyNominalSampleRate
                 /\ mSelector inAddress
                    <> kAudioDevicePropertyAvailableNominalSampleRates).
  { destruct H as [H|H].
    - apply HasProperty_false_inv in H. tauto.
    - rewrite H. repeat split; discriminate. }
  destruct Hsel as (H1 & H2 & H3 & H4 & H5 & H6).
  split.
  - eexists. split; [apply GetPropertyDataSize_run|].
    cbn [memory]. rewrite load_store_UInt32.
    now rewrite advertised_size_default.
  - eexists.
    split; [now apply GetPropertyData_default|].
    cbn [memory]. split; [apply load_store_UInt32|].
    split; [intros a Ha; now apply store_UInt32_outside|].
    split; [reflexivity|split; reflexivity].
Qed.

(** A selector the driver does not know, with no capacity and no driver. *)
Lemma property_without_data_has_size_zero_witness :
  (exists s1,
      GetPropertyDataSize NullDriver 1 0 (mkAddress 0 0 0) 0 NULL 1000
                          initial_state
      = Some (kAudioHardwareNoError, s1)
      /\ load_UInt32 (memory s1) 1000 = Some 0)
  /\ (exists s2,
         GetPropertyData NullDriver 1 0 (mkAddress 0 0 0) 0 NULL 0 1000 2000
                         initial_state
         = Some (kAudioHardwareNoError, s2)
         /\ load_UInt32 (memory s2) 1000 = Some 0
         /\ (forall a, ~ (1000 <= a < 1000 + 4) ->
                       memory s2 a = memory initial_state a)
         /\ same_driver_state initial_state s2).
Proof.
  apply (property_without_data_has_size_zero NullDriver 1 0 (mkAddress 0 0 0)
           0 NULL 0 1000 2000 initial_state).
  left. reflexivity.
Defined.

Lemma GetPropertyData_fixed_value inDriver inObjectID pid scope elem qsz q
      inDataSize outDataSize outData s sel v :
  (sel, v) = (kAudioObjectPropertyName, CFSTR "SotF")
  \/ (sel, v) = (kAudioObjectPropertyManufacturer, CFSTR "Pierre F. Aubert")
  \/ (sel, v) = (kAudioDevicePropertyDeviceUID, CFSTR "SotF-001")
  \/ (sel, v) = (kAudioDevicePropertyNominalSampleRate, Float64 44100%float) ->
  8 <= inDataSize ->
  GetPropertyData inDriver inObjectID pid (mkAddress sel scope elem) qsz q
                  inDataSize outDataSize outData s
  = Some (kAudioHardwareNoError,
          mkState (gDriver s) (heap s)
                  (store_UInt32 (store_val (memory s) outData v) outDataSize 8)
                  (events s)).
Proof.
  intros Hsel Hcap. apply Z.leb_le in Hcap.
  unfold GetPropertyData. cbn [mSelector].
  destruct Hsel as [E|[E|[E|E]]]; injection E as -> ->;
    case_selector; try discriminate; try congruence;
    unfold bind, sizeof_CFStringRef, sizeof_Float64; rewrite Hcap; reflexivity.
Qed.

(** X15.  With room for eight bytes, and [*outDataSize] outside the output
    buffer, [GetPropertyData] answers the name with the string "SotF", the
    manufacturer with "Pierre F. Aubert", the device UID with "SotF-001" and
    the nominal sample rate with 44100.0, each time reporting 8 bytes; none of
    these answers depends on the driver pointer, the scope or the element. *)
Theorem identity_and_rate_values :
  forall inDriver inObjectID pid scope elem qsz q inDataSize
         outDataSize outData s,
    8 <= inDataSize ->
    outDataSize + 4 <= outData \/ outData + 8 <= outDataSize ->
    answers_with inDriver inObjectID pid scope elem qsz q inDataSize
                 outDataSize outData s
                 kAudioObjectPropertyName (CFSTR "SotF") 8
    /\ answers_with inDriver inObjectID pid scope elem qsz q inDataSize
                    outDataSize outData s
                    kAudioObjectPropertyManufacturer (CFSTR "Pierre F. Aubert") 8
    /\ answers_with inDriver inObjectID pid scope elem qsz q inDataSize
                    outDataSize outData s
                    kAudioDevicePropertyDeviceUID (CFSTR "SotF-001") 8
    /\ answers_with inDriver inObjectID pid scope elem qsz q inDataSize
                    outDataSize outData s
                    kAudioDevicePropertyNominalSampleRate (Float64 44100%float) 8.
Proof.
  intros inDriver inObjectID pid scope elem qsz q inDataSize
         outDataSize outData s Hcap Hdisj.
  assert (H : forall sel v,
             (sel, v) = (kAudioObjectPropertyName, CFSTR "SotF")
             \/ (sel, v) = (kAudioObjectPropertyManufacturer,
                            CFSTR "Pierre F. Aubert")
             \/ (sel, v) = (kAudioDevicePropertyDeviceUID, CFSTR "SotF-001")
             \/ (sel, v) = (kAudioDevicePropertyNominalSampleRate,
                            Float64 44100%float) ->
             answers_with inDriver inObjectID pid scope elem qsz q inDataSize
                          outDataSize outData s sel v 8).
  { intros sel v Hsel. eexists.
    split; [apply (GetPropertyData_fixed_value _ _ _ _ _ _ _ _ _ _ _ _ _ Hsel Hcap)|].
    cbn [memory]. split; [|apply load_store_UInt32].
    apply (holds_val_ext (store_val (memory s) outData v));
      [|apply holds_store_val].
    intros x Hx. apply store_UInt32_outside. lia. }
  repeat split; apply H; tauto.
Qed.

Lemma identity_and_rate_values_witness :
  answers_with DriverBlock 1 0 kAudioObjectPropertyScopeGlobal 0 0 NULL 8
               1000 2000 initialized_state
               kAudioObjectPropertyName (CFSTR "SotF") 8
  /\ answers_with DriverBlock 1 0 kAudioObjectPropertyScopeGlobal 0 0 NULL 8
                  1000 2000 initialized_state
                  kAudioObjectPropertyManufacturer (CFSTR "Pierre F. Aubert") 8
  /\ answers_with DriverBlock 1 0 kAudioObjectPropertyScopeGlobal 0 0 NULL 8
                  1000 2000 initialized_state
                  kAudioDevicePropertyDeviceUID (CFSTR "SotF-001") 8
  /\ answers_with DriverBlock 1 0 kAudioObjectPropertyScopeGlobal 0 0 NULL 8
                  1000 2000 initialized_state
                  kAudioDevicePropertyNominalSampleRate (Float64 44100%float) 8.
Proof.
  apply (identity_and_rate_values DriverBlock 1 0
           kAudioObjectPropertyScopeGlobal 0 0 NULL 8 1000 2000
           initialized_state).
  - discriminate.
  - left. discriminate.
Defined.

Lemma GetPropertyData_available_rates inDriver inObjectID pid scope elem qsz q
      inDataSize outDataSize outData s :
  sizeof_AudioValueRange * 3 <= inDataSize ->
  GetPropertyData inDriver inObjectID pid
    (mkAddress kAudioDevicePropertyAvailableNominalSampleRates scope elem)
    qsz q inDataSize outDataSize outData s
  = Some (kAudioHardwareNoError,
          mkState (gDriver s) (heap s)
            (store_UInt32
               (store_val
                  (store_val
                     (store_val
                        (store_val
                           (store_val
                              (store_val (memory s)
                                 (outData + 0 * sizeof_AudioValueRange + offsetof_mMinimum)
                                 (Float64 44100%float))
                              (outData + 0 * sizeof_AudioValueRange + offsetof_mMaximum)
                              (Float64 44100%float))
                           (outData + 1 * sizeof_AudioValueRange + offsetof_mMinimum)
                           (Float64 48000%float))
                        (outData + 1 * sizeof_AudioValueRange + offsetof_mMaximum)
                        (Float64 48000%float))
                     (outData + 2 * sizeof_AudioValueRange + offsetof_mMinimum)
                     (Float64 96000%float))
                  (outData + 2 * sizeof_AudioValueRange + offsetof_mMaximum)
                  (Float64 96000%float))
               outDataSize (sizeof_AudioValueRange * 3))
            (events s)).
Proof.
  intros Hcap. apply Z.leb_le in Hcap.
  unfold GetPropertyData. cbn [mSelector].
  change (to_size_t (sizeof_AudioValueRange * 3)) with (sizeof_AudioValueRange * 3).
  case_selector; try discriminate; try congruence.
  unfold bind. rewrite Hcap. reflexivity.
Qed.

(** X16.  With room for three ranges, and [*outDataSize] outside the output
    buffer, [GetPropertyData] answers the available nominal sample rates with
    exactly three ranges, 44100, 48000 and 96000 Hz, each with its minimum
    equal to its maximum, and reports 3 * sizeof(AudioValueRange) bytes. *)
Theorem available_sample_rates_are_three_points :
  forall inDriver inObjectID pid scope elem qsz q inDataSize
         outDataSize outData s,
    sizeof_AudioValueRange * 3 <= inDataSize ->
    outDataSize + 4 <= outData
    \/ outData + sizeof_AudioValueRange * 3 <= outDataSize ->
    exists s',
      GetPropertyData inDriver inObjectID pid
        (mkAddress kAudioDevicePropertyAvailableNominalSampleRates scope elem)
        qsz q inDataSize outDataSize outData s
      = Some (kAudioHardwareNoError, s')
      /\ load_UInt32 (memory s') outDataSize = Some (sizeof_AudioValueRange * 3)
      /\ forall i rate, In (i, rate) available_rates ->
           holds_val (memory s')
                     (outData + i * sizeof_AudioValueRange + offsetof_mMinimum)
                     (Float64 rate)
           /\ holds_val (memory s')
                        (outData + i * sizeof_AudioValueRange + offsetof_mMaximum)
                        (Float64 rate).
Proof.
  intros inDriver inObjectID pid scope elem qsz q inDataSize
         outDataSize outData s Hcap Hdisj.
  eexists.
  split; [apply (GetPropertyData_available_rates _ _ _ _ _ _ _ _ _ _ _ Hcap)|].
  cbn [memory]. split; [apply load_store_UInt32|].
  unfold sizeof_AudioValueRange, offsetof_mMinimum, offsetof_mMaximum in *.
  intros i rate Hin.
  cbn [In available_rates] in Hin.
  destruct Hin as [E|[E|[E|[]]]]; injection E as <- <-; split;
    repeat first
      [ apply holds_store_val
      | eapply holds_val_ext;
        [ intros x Hx;
          first [ apply store_UInt32_outside | apply store_val_outside ]; lia
        | ] ].
Qed.

Lemma available_sample_rates_are_three_points_witness :
  exists s',
    GetPropertyData DriverBlock 1 0
      (mkAddress kAudioDevicePropertyAvailableNominalSampleRates
                 kAudioObjectPropertyScopeGlobal 0)
      0 NULL 48 1000 2000 initialized_state
    = Some (kAudioHardwareNoError, s')
    /\ load_UInt32 (memory s') 1000 = Some 48
    /\ forall i rate, In (i, rate) available_rates ->
         holds_val (memory s') (2000 + i * 16 + 0) (Float64 rate)
         /\ holds_val (memory s') (2000 + i * 16 + 8) (Float64 rate).
Proof.
  apply (available_sample_rates_are_three_points DriverBlock 1 0
           kAudioObjectPropertyScopeGlobal 0 0 NULL 48 1000 2000
           initialized_state).
  - discriminate.
  - left. discriminate.
Defined.

(** ** The IO cycle *)

(** X17.  [GetZeroTimeStamp] always answers with sample time 0.0, host time 0
    and seed 0 (read back from three out-parameters that do not overlap), is
    independent of the driver and of every argument but the three pointers,
    and leaves the driver instance alone; called again with the same pointers
    it changes no byte: the anchor and its seed never move. *)
Theorem GetZeroTimeStamp_is_constant :
  forall inDriver inDeviceObjectID inClientID outSampleTime outHostTime outSeed s,
    outSampleTime + 8 <= outHostTime \/ outHostTime + 8 <= outSampleTime ->
    outSampleTime + 8 <= outSeed \/ outSeed + 8 <= outSampleTime ->
    outHostTime + 8 <= outSeed \/ outSeed + 8 <= outHostTime ->
    exists s1 s2,
      GetZeroTimeStamp inDriver inDeviceObjectID inClientID
                       outSampleTime outHostTime outSeed s
      = Some (kAudioHardwareNoError, s1)
      /\ holds_val (memory s1) outSampleTime (Float64 0%float)
      /\ load_UInt64 (memory s1) outHostTime = Some 0
      /\ load_UInt64 (memory s1) outSeed = Some 0
      /\ same_driver_state s s1
      /\ GetZeroTimeStamp inDriver inDeviceObjectID inClientID
                          outSampleTime outHostTime outSeed s1
         = Some (kAudioHardwareNoError, s2)
      /\ (forall a, memory s2 a = memory s1 a).
Proof.
  intros inDriver inDeviceObjectID inClientID t h sd s Hth Hts Hhs.
  do 2 eexists. split; [reflexivity|]. cbn [memory].
  split.
  { eapply holds_val_ext;
      [intros x Hx; apply store_UInt64_outside; lia|].
    eapply holds_val_ext;
      [intros x Hx; apply store_UInt64_outside; lia|].
    apply holds_store_val. }
  split.
  { unfold load_UInt64. rewrite (decode_int_ext 8 (store_UInt64
      (store_val (memory s) t (Float64 0%float)) h 0)).
    - apply load_store_UInt64.
    - intros x Hx. apply store_UInt64_outside. cbn in Hx. lia. }
  split; [apply load_store_UInt64|].
  split; [split; [reflexivity|split; reflexivity]|].
  split; [reflexivity|]. cbn [memory].
  intros a. unfold store_UInt64, store_val, store_bytes.
  destruct (in_range sd _ a); [reflexivity|].
  destruct (in_range h _ a); [reflexivity|].
  destruct (in_range t _ a); reflexivity.
Qed.

Lemma GetZeroTimeStamp_is_constant_witness :
  exists s1 s2,
    GetZeroTimeStamp DriverBlock 1 7 4000 4008 4016 initialized_state
    = Some (kAudioHardwareNoError, s1)
    /\ holds_val (memory s1) 4000 (Float64 0%float)
    /\ load_UInt64 (memory s1) 4008 = Some 0
    /\ load_UInt64 (memory s1) 4016 = Some 0
    /\ same_driver_state initialized_state s1
    /\ GetZeroTimeStamp DriverBlock 1 7 4000 4008 4016 s1
       = Some (kAudioHardwareNoError, s2)
    /\ (forall a, memory s2 a = memory s1 a).
Proof.
  apply (GetZeroTimeStamp_is_constant DriverBlock 1 7 4000 4008 4016
           initialized_state).
  - left. discriminate.
  - left. discriminate.
  - left. discriminate.
Defined.

Lemma run_passive_run inDriver (c : passive_call) s :
  exists l,
    run_passive inDriver c s
    = Some (kAudioHardwareNoError,
            mkState (gDriver s) (heap s) (memory s) (events s ++ l))
    /\ forallb is_log l = true
    /\ (List.length l <= 1)%nat.
Proof.
  destruct s as [g h m ev].
  destruct c; cbn [run_passive gDriver heap memory events];
    first [ eexists; split; [reflexivity | split; [reflexivity | cbn; lia]]
          | exists []; rewrite app_nil_r; split; [reflexivity | split; [reflexivity | cbn; lia]] ].
Qed.

Lemma sequence_passive inDriver (cs : list passive_call) : forall s,
  exists l,
    sequence (map (run_passive inDriver) cs) s
    = Some (List.repeat kAudioHardwareNoError (List.length cs),
            mkState (gDriver s) (heap s) (memory s) (events s ++ l))
    /\ forallb is_log l = true
    /\ (List.length l <= List.length cs)%nat.
Proof.
  induction cs as [|c cs IH]; intros s.
  - exists []. destruct s. cbn. rewrite app_nil_r. auto.
  - destruct (run_passive_run inDriver c s) as (l1 & H1 & Hl1 & Hn1).
    destruct (IH (mkState (gDriver s) (heap s) (memory s) (events s ++ l1)))
      as (l2 & H2 & Hl2 & Hn2).
    exists (l1 ++ l2)%list. cbn [map sequence List.length List.repeat].
    unfold bind. rewrite H1, H2. cbn [gDriver heap memory events ret].
    rewrite app_assoc, forallb_app, Hl1, Hl2, length_app.
    split; [reflexivity|]. split; [reflexivity|]. lia.
Qed.

(** X18.  Device teardown, client registration and removal, configuration
    change and abort, [StartIO], [StopIO] and the IO brackets are bookkeeping
    only: any sequence of these calls, in any order and any number of times,
    with any arguments and any driver pointer (null or freed included),
    returns [kAudioHardwareNoError] every time and leaves the global pointer,
    the driver block and the host's memory untouched; all it adds to the
    trace is at most one log line per call. *)
Theorem passive_calls_change_nothing :
  forall inDriver (cs : list passive_call) s,
    exists s' l,
      sequence (map (run_passive inDriver) cs) s
      = Some (List.repeat kAudioHardwareNoError (List.length cs), s')
      /\ gDriver s' = gDriver s
      /\ heap s' = heap s
      /\ memory s' = memory s
      /\ events s' = (events s ++ l)%list
      /\ forallb is_log l = true
      /\ (List.length l <= List.length cs)%nat.
Proof.
  intros inDriver cs s.
  destruct (sequence_passive inDriver cs s) as (l & H & Hl & Hn).
  eexists. exists l. split; [exact H|]. cbn [gDriver heap memory events].
  do 4 (split; [reflexivity|]). split; assumption.
Qed.

Lemma DoIOOperation_depends_on_block_and_memory inDriver id st c op f i main
      secondary s t :
  heap t = heap s ->
  memory t = memory s ->
  option_map (fun r => (fst r, memory (snd r)))
             (DoIOOperation inDriver id st c op f i main secondary t)
  = option_map (fun r => (fst r, memory (snd r)))
               (DoIOOperation inDriver id st c op f i main secondary s).
Proof.
  destruct s as [g h m ev], t as [g' h' m' ev'].
  cbn [heap memory]. intros -> ->.
  unfold DoIOOperation, bind, deref, write, ret. cbn [heap memory].
  destruct (negb (main =? NULL)); [|reflexivity].
  destruct inDriver; [reflexivity|]. destruct h; reflexivity.
Qed.

(** X19.  The IO path keeps no running state: whatever sequence of [StartIO],
    [StopIO], bracket and other bookkeeping calls precedes it (a [StopIO]
    without a later [StartIO] included), [DoIOOperation] returns the same
    status and leaves the same memory as it would without them. *)
Theorem DoIOOperation_ignores_start_and_stop :
  forall inDriver (cs : list passive_call) inDeviceObjectID inStreamObjectID
         inClientID inOperationID inIOBufferFrameSize inIOCycleInfo
         ioMainBuffer ioSecondaryBuffer s,
    option_map (fun r => (fst r, memory (snd r)))
      ((sequence (map (run_passive inDriver) cs) ;;
        DoIOOperation inDriver inDeviceObjectID inStreamObjectID inClientID
                      inOperationID inIOBufferFrameSize inIOCycleInfo
                      ioMainBuffer ioSecondaryBuffer) s)
    = option_map (fun r => (fst r, memory (snd r)))
        (DoIOOperation inDriver inDeviceObjectID inStreamObjectID inClientID
                       inOperationID inIOBufferFrameSize inIOCycleInfo
                       ioMainBuffer ioSecondaryBuffer s).
Proof.
  intros inDriver cs id st c op f i main secondary s.
  destruct (sequence_passive inDriver cs s) as (l & H & _).
  unfold bind. rewrite H.
  apply DoIOOperation_depends_on_block_and_memory; reflexivity.
Qed.
